(** * A shallow embedding of [text-viewer-window.c]

  The window of the text viewer is a handful of callbacks wired to
  GLib/GTK: [open_file_complete], [open_file], [on_open_response],
  [text_viewer_window__open_file_dialog] and
  [text_view_window__update_cursor_postion].  The callbacks are
  translated to functions of a small state-and-log monad over the
  window's widgets; the toolkit calls they make are modelled from the
  toolkit's documented behaviour. *)

From Stdlib Require Import ZArith List String Ascii Bool Lia.
From Stdlib Require Import Strings.Byte Numbers.DecimalString.
Import ListNotations.

Local Open Scope string_scope.
Local Open Scope list_scope.
Local Open Scope Z_scope.

(** ** C integers *)

Module CInt.

Definition INT_MAX : Z := 2147483647.
Definition INT_MIN : Z := -2147483648.

(** Conversion of an integer value to [int] (32 bits, two's
    complement): the value modulo 2^32 taken in [INT_MIN, INT_MAX]. *)
Definition to_int (z : Z) : Z :=
  (z + 2147483648) mod 4294967296 - 2147483648.

(** [a + b] on [int]. *)
Definition add (a b : Z) : Z := to_int (a + b).

End CInt.

(** ** printf conversions *)

Module Printf.

(** [%d]: signed decimal. *)
Definition fmt_d (z : Z) : string := NilZero.string_of_int (Z.to_int z).

(** [%s]: the string, and [(null)] for a NULL pointer as GLib's
    printf does. *)
Definition fmt_s (s : option string) : string :=
  match s with
  | Some str => str
  | None => "(null)"
  end.

(** The line feed, ["\n"] in C. *)
Definition LF : string := String "010"%char EmptyString.

(** U+201C and U+201D, the quotation marks of the source's format
    strings, in UTF-8. *)
Definition ldquo : string :=
  String "226"%char (String "128"%char (String "156"%char EmptyString)).
Definition rdquo : string :=
  String "226"%char (String "128"%char (String "157"%char EmptyString)).

(** U+0022, the ASCII quotation mark. *)
Definition dquote : string := String "034"%char EmptyString.

End Printf.

(** ** UTF-8 *)

Module Utf8.

Definition gunichar := Z.

Definition byte_val (b : byte) : Z := Z.of_N (Byte.to_N b).

Definition in_range (lo hi v : Z) : bool := (lo <=? v) && (v <=? hi).

(** A continuation byte, 10xxxxxx. *)
Definition is_cont (v : Z) : bool := in_range 128 191 v.

(** The second byte of a three-byte sequence, by its first byte
    (no overlong form after E0, no surrogate after ED). *)
Definition second_of_3 (v1 v2 : Z) : bool :=
  if v1 =? 224 then in_range 160 191 v2
  else if v1 =? 237 then in_range 128 159 v2
  else is_cont v2.

(** The second byte of a four-byte sequence, by its first byte
    (no overlong form after F0, nothing above U+10FFFF after F4). *)
Definition second_of_4 (v1 v2 : Z) : bool :=
  if v1 =? 240 then in_range 144 191 v2
  else if v1 =? 244 then in_range 128 143 v2
  else is_cont v2.

(** Decoding of a byte sequence as UTF-8 (the well-formed byte
    sequences of the Unicode standard); [None] when the bytes are not
    UTF-8. *)
Fixpoint utf8_decode (bs : list byte) : option (list gunichar) :=
  match bs with
  | [] => Some []
  | b1 :: r1 =>
      let v1 := byte_val b1 in
      if v1 <? 128 then option_map (cons v1) (utf8_decode r1)
      else if in_range 194 223 v1 then
        match r1 with
        | b2 :: r2 =>
            let v2 := byte_val b2 in
            if is_cont v2
            then option_map (cons ((v1 - 192) * 64 + (v2 - 128)))
                            (utf8_decode r2)
            else None
        | _ => None
        end
      else if in_range 224 239 v1 then
        match r1 with
        | b2 :: b3 :: r3 =>
            let v2 := byte_val b2 in
            let v3 := byte_val b3 in
            if second_of_3 v1 v2 && is_cont v3
            then option_map
                   (cons ((v1 - 224) * 4096 + (v2 - 128) * 64 + (v3 - 128)))
                   (utf8_decode r3)
            else None
        | _ => None
        end
      else if in_range 240 244 v1 then
        match r1 with
        | b2 :: b3 :: b4 :: r4 =>
            let v2 := byte_val b2 in
            let v3 := byte_val b3 in
            let v4 := byte_val b4 in
            if second_of_4 v1 v2 && is_cont v3 && is_cont v4
            then option_map
                   (cons ((v1 - 240) * 262144 + (v2 - 128) * 4096
                          + (v3 - 128) * 64 + (v4 - 128)))
                   (utf8_decode r4)
            else None
        | _ => None
        end
      else None
  end.

Definition byte_of_Z (z : Z) : byte :=
  match Byte.of_N (Z.to_N z) with
  | Some b => b
  | None => x00
  end.

(** Encoding of one code point. *)
Definition utf8_encode_char (c : gunichar) : list byte :=
  if c <? 128 then [byte_of_Z c]
  else if c <? 2048 then
    [byte_of_Z (192 + c / 64); byte_of_Z (128 + c mod 64)]
  else if c <? 65536 then
    [byte_of_Z (224 + c / 4096); byte_of_Z (128 + (c / 64) mod 64);
     byte_of_Z (128 + c mod 64)]
  else
    [byte_of_Z (240 + c / 262144); byte_of_Z (128 + (c / 4096) mod 64);
     byte_of_Z (128 + (c / 64) mod 64); byte_of_Z (128 + c mod 64)].

Definition utf8_encode (cs : list gunichar) : list byte :=
  flat_map utf8_encode_char cs.

(** [g_utf8_validate_len]: what [g_utf8_validate (str, max_len, NULL)]
    does for [max_len >= 0], on the [max_len] bytes [str].  The scan
    stops at the first byte which does not continue a well-formed
    sequence, and at a nul byte; the text is valid when the scan
    reaches the end.  ("Note that g_utf8_validate() returns FALSE if
    max_len is positive and any of the max_len bytes are nul.") *)
Fixpoint g_utf8_validate_len (str : list byte) : bool :=
  match str with
  | [] => true
  | b1 :: r1 =>
      let v1 := byte_val b1 in
      if v1 =? 0 then false
      else if v1 <? 128 then g_utf8_validate_len r1
      else if v1 <? 224 then
        if v1 <? 194 then false
        else
          match r1 with
          | b2 :: r2 => is_cont (byte_val b2) && g_utf8_validate_len r2
          | _ => false
          end
      else if v1 <? 240 then
        match r1 with
        | b2 :: b3 :: r3 =>
            second_of_3 v1 (byte_val b2) && is_cont (byte_val b3)
            && g_utf8_validate_len r3
        | _ => false
        end
      else if v1 <? 245 then
        match r1 with
        | b2 :: b3 :: b4 :: r4 =>
            second_of_4 v1 (byte_val b2) && is_cont (byte_val b3)
            && is_cont (byte_val b4) && g_utf8_validate_len r4
        | _ => false
        end
      else false
  end.

(** No byte of the text is nul. *)
Definition no_nul (bs : list byte) : bool :=
  forallb (fun b => negb (byte_val b =? 0)) bs.

Definition is_some {A} (o : option A) : bool :=
  match o with
  | Some _ => true
  | None => false
  end.

(** [strlen]: the bytes before the first nul. *)
Fixpoint strlen (str : list byte) : nat :=
  match str with
  | [] => O
  | b :: r => if byte_val b =? 0 then O else S (strlen r)
  end.

End Utf8.

(** ** Lines of a text buffer *)

Module TextLines.

Import Utf8.

(** A paragraph ends after a line feed, after U+2029, and after a
    carriage return that no line feed follows (a CR LF pair ends the
    line after the LF): the delimiters of a [GtkTextBuffer]. *)
Definition ends_line (c : gunichar) (rest : list gunichar) : bool :=
  (c =? 10) || (c =? 8233)
  || ((c =? 13) && negb (match rest with
                         | d :: _ => d =? 10
                         | [] => false
                         end)).

(** The lines of a text, each with its delimiter; the last line has
    none, and is empty when the text ends with a delimiter. *)
Fixpoint lines (txt : list gunichar) : list (list gunichar) :=
  match txt with
  | [] => [[]]
  | c :: rest =>
      if ends_line c rest then [c] :: lines rest
      else match lines rest with
           | l :: ls => (c :: l) :: ls
           | [] => [[c]]
           end
  end.

(** The line and the offset in it of the position [off] characters
    after the start of line number [ln], the first of the lines [ls];
    past the last line it is the end of that line. *)
Fixpoint locate (ls : list (list gunichar)) (ln : Z) (off : nat)
  : Z * Z :=
  match ls with
  | [] => (ln, 0)
  | l :: ls' =>
      match ls' with
      | [] => (ln, Z.of_nat (Nat.min off (List.length l)))
      | _ :: _ =>
          if (off <? List.length l)%nat then (ln, Z.of_nat off)
          else locate ls' (ln + 1) (off - List.length l)
      end
  end.

(** The lines [ls] when the first of them already holds [pre]. *)
Definition prepend (pre : list gunichar) (ls : list (list gunichar))
  : list (list gunichar) :=
  match ls with
  | l :: ls' => (pre ++ l) :: ls'
  | [] => [pre]
  end.

(** The position reached by walking [off] characters into [txt] from
    line [ln], column [col]: every delimiter passed starts a line. *)
Fixpoint line_col (txt : list gunichar) (off : nat) (ln col : Z) : Z * Z :=
  match off, txt with
  | S k, c :: rest =>
      if ends_line c rest then line_col rest k (ln + 1) 0
      else line_col rest k ln (col + 1)
  | _, _ => (ln, col)
  end.

(** The 0-based line of the character offset [off] of [txt]. *)
Definition line_of (txt : list gunichar) (off : nat) : Z :=
  fst (line_col txt off 0 0).

(** The 0-based column of [off]: its distance to the start of its
    line. *)
Definition column_of (txt : list gunichar) (off : nat) : Z :=
  snd (line_col txt off 0 0).

End TextLines.

(** ** Files *)

Module Gio.

(** A [GFile]: what the window asks of it. *)
Record GFile := mkFile {
  file_path : option string;      (* NULL when the file has no local path *)
  file_basename : option string
}.

Definition g_file_peek_path (file : GFile) : option string :=
  file_path file.

Definition g_file_get_basename (file : GFile) : option string :=
  file_basename file.

(** A [GFileInfo]: its string attributes, by name. *)
Record GFileInfo := mkInfo { info_attributes : list (string * string) }.

Fixpoint lookup (name : string) (l : list (string * string))
  : option string :=
  match l with
  | [] => None
  | (k, v) :: l' => if String.eqb k name then Some v else lookup name l'
  end.

Definition g_file_info_get_attribute_string (info : GFileInfo)
  (attribute : string) : option string :=
  lookup attribute (info_attributes info).

Record GError := mkError { message : string }.

(** The outcome of [g_file_load_contents_async], as
    [g_file_load_contents_finish] reports it. *)
Inductive GAsyncResult : Type :=
| Loaded (bytes : list byte)
| Failed (err : GError).

(** The locals [contents], [length] and [error] after
    [g_file_load_contents_finish]: the buffer and its size, or the
    error and the locals' initial values. *)
Definition g_file_load_contents_finish (result : GAsyncResult)
  : option (list byte) * Z * option GError :=
  match result with
  | Loaded bytes => (Some bytes, Z.of_nat (List.length bytes), None)
  | Failed err => (None, 0, Some err)
  end.

End Gio.

(** ** The window and the toolkit calls on it *)

Module Gtk.

Import Utf8 TextLines Gio.

Record GtkTextBuffer := mkBuffer {
  text : list gunichar;
  cursor_position : Z          (* the offset of the insertion mark *)
}.

(** A [GtkTextIter]: a character offset, its line and its offset in
    the line. *)
Record GtkTextIter := mkIter {
  iter_offset : Z;
  iter_line : Z;
  iter_line_offset : Z
}.

(** [struct _TextViewerWindow]: the title of the window, the buffer of
    [main_text_view] and the text of the label [cursor_pos].  The
    header bar and the open button are never read or written. *)
Record TextViewerWindow := mkWindow {
  title : option string;
  main_text_view : GtkTextBuffer;
  cursor_pos : string
}.

(** The toolkit calls with an effect, in the order made. *)
Inductive Call : Type :=
| Call_g_printerr (line : string)
| Call_g_utf8_validate (str : list byte) (max_len : Z)
| Call_gtk_text_buffer_set_text (str : list byte) (len : Z)
| Call_gtk_text_buffer_place_cursor (offset : Z)
| Call_gtk_window_set_title (name : option string)
| Call_gtk_label_set_text (str : string)
| Call_g_file_load_contents_async (file : GFile)
| Call_gtk_file_dialog_open.

(** A callback either returns, leaving a window and the calls it made,
    or reads through a NULL pointer. *)
Inductive Outcome (A : Type) : Type :=
| Done (a : A) (w : TextViewerWindow) (calls : list Call)
| Fault.
Arguments Done {A} a w calls.
Arguments Fault {A}.

Definition M (A : Type) : Type := TextViewerWindow -> Outcome A.

Definition ret {A} (a : A) : M A := fun w => Done a w [].

Definition bind {A B} (m : M A) (k : A -> M B) : M B :=
  fun w =>
    match m w with
    | Done a w1 c1 =>
        match k a w1 with
        | Done b w2 c2 => Done b w2 (c1 ++ c2)
        | Fault => Fault
        end
    | Fault => Fault
    end.

Definition call (c : Call) : M unit := fun w => Done tt w [c].
Definition get : M TextViewerWindow := fun w => Done w w [].
Definition put (w : TextViewerWindow) : M unit := fun _ => Done tt w [].
Definition fault {A} : M A := fun _ => Fault.

End Gtk.

Declare Scope gtk_scope.
Delimit Scope gtk_scope with gtk.
Notation "x <- m ;; k" := (Gtk.bind m (fun x => k))
(at level 61, m at next level, right associativity) : gtk_scope.
Notation "m ;; k" := (Gtk.bind m (fun _ => k))
(at level 61, right associativity) : gtk_scope.

(** The GLib and GTK functions the window calls, after their reference
    documentation: each acts on the window's widgets and records the
    call. *)

Module Toolkit.

Import Printf Utf8 TextLines Gio Gtk.
Local Open Scope gtk_scope.

Definition g_strdup (s : option string) : option string := s.

(** [g_printerr]: the formatted message goes to the standard error
    stream (as it is when the console takes UTF-8). *)
Definition g_printerr (line : string) : M unit :=
  call (Call_g_printerr line).

(** [g_utf8_validate (str, max_len, NULL)]: reads the bytes of [str];
    a negative [max_len] takes the text up to its nul terminator.  (The
    window passes the [gsize] length of a buffer; a buffer has fewer
    than 2^63 bytes, so the length is the same number as a [gssize].) *)
Definition g_utf8_validate (str : option (list byte)) (max_len : Z)
  : M bool :=
  match str with
  | None => fault
  | Some bytes =>
      call (Call_g_utf8_validate bytes max_len) ;;
      ret (if max_len <? 0
           then g_utf8_validate_len (firstn (strlen bytes) bytes)
           else g_utf8_validate_len (firstn (Z.to_nat max_len) bytes))
  end.

Definition gtk_window_set_title (name : option string) : M unit :=
  call (Call_gtk_window_set_title name) ;;
  self <- get ;;
  put (mkWindow name (main_text_view self) (cursor_pos self)).

Definition gtk_label_set_text (str : string) : M unit :=
  call (Call_gtk_label_set_text str) ;;
  self <- get ;;
  put (mkWindow (title self) (main_text_view self) str).

(** [g_object_get (buffer, "cursor-position", &cursor_pos, NULL)] *)
Definition g_object_get_cursor_position (buffer : GtkTextBuffer) : Z :=
  cursor_position buffer.

(** [gtk_text_buffer_get_iter_at_offset]: the iterator at
    [char_offset]; the end iterator when the offset is negative or past
    the end. *)
Definition gtk_text_buffer_get_iter_at_offset (buffer : GtkTextBuffer)
  (char_offset : Z) : GtkTextIter :=
  let count := Z.of_nat (List.length (text buffer)) in
  let off := if (char_offset <? 0) || (count <? char_offset)
             then count else char_offset in
  let '(ln, col) := locate (lines (text buffer)) 0 (Z.to_nat off) in
  mkIter off ln col.

Definition gtk_text_buffer_get_start_iter (buffer : GtkTextBuffer)
  : GtkTextIter :=
  mkIter 0 0 0.

Definition gtk_text_iter_get_line (iter : GtkTextIter) : Z :=
  iter_line iter.

Definition gtk_text_iter_get_line_offset (iter : GtkTextIter) : Z :=
  iter_line_offset iter.

(** [g_strdup_printf ("Ln %d, Col %d", a, b)] *)
Definition g_strdup_printf_Ln_Col (a b : Z) : string :=
  ("Ln " ++ fmt_d a ++ ", Col " ++ fmt_d b)%string.

Section Buffer.

(** The handler connected to [notify::cursor-position] of the
    buffer.  The buffer notifies after every deletion, insertion and
    move of the insertion mark. *)
Variable notify_cursor_position : M unit.

Definition set_buffer (buffer : GtkTextBuffer) : M unit :=
  self <- get ;;
  put (mkWindow (title self) buffer (cursor_pos self)).

(** [gtk_text_buffer_delete] from the start to the end of the
    buffer: nothing happens on an empty range. *)
Definition delete_bounds : M unit :=
  self <- get ;;
  match text (main_text_view self) with
  | [] => ret tt
  | _ :: _ => set_buffer (mkBuffer [] 0) ;; notify_cursor_position
  end.

(** [gtk_text_buffer_insert] of [str] at offset 0.  The text must be
    valid UTF-8, or nothing is inserted; the insertion mark stays
    after the inserted text. *)
Definition insert_at_start (str : list byte) : M unit :=
  if g_utf8_validate_len str then
    match utf8_decode str with
    | Some chars =>
        self <- get ;;
        let buffer := main_text_view self in
        set_buffer
          (mkBuffer (chars ++ text buffer)
             (cursor_position buffer + Z.of_nat (List.length chars))) ;;
        notify_cursor_position
    | None => ret tt
    end
  else ret tt.

(** [gtk_text_buffer_set_text (buffer, text, len)]: deletes the
    contents of the buffer and inserts the [len] bytes of [text];
    a negative [len] stands for [strlen (text)], itself taken as an
    [int].  A NULL [text] is refused. *)
Definition gtk_text_buffer_set_text (str : option (list byte)) (len : Z)
  : M unit :=
  match str with
  | None => ret tt
  | Some bytes =>
      call (Call_gtk_text_buffer_set_text bytes len) ;;
      let len := if len <? 0
                 then CInt.to_int (Z.of_nat (strlen bytes))
                 else len in
      delete_bounds ;;
      if 0 <? len then insert_at_start (firstn (Z.to_nat len) bytes)
      else ret tt
  end.

(** [gtk_text_buffer_place_cursor (buffer, where_)] *)
Definition gtk_text_buffer_place_cursor (where_ : GtkTextIter) : M unit :=
  call (Call_gtk_text_buffer_place_cursor (iter_offset where_)) ;;
  self <- get ;;
  set_buffer (mkBuffer (text (main_text_view self)) (iter_offset where_)) ;;
  notify_cursor_position.

End Buffer.

End Toolkit.

(** ** The callbacks of [text-viewer-window.c] *)

Module Window.

Import Printf Utf8 TextLines Gio Gtk Toolkit.
Local Open Scope gtk_scope.

Definition text_view_window__update_cursor_postion : M unit :=
  self <- get ;;
  let buffer := main_text_view self in
  let cursor_pos := g_object_get_cursor_position buffer in
  let iter := gtk_text_buffer_get_iter_at_offset buffer cursor_pos in
  let cursor_str :=
    g_strdup_printf_Ln_Col (CInt.add (gtk_text_iter_get_line iter) 1)
                           (CInt.add (gtk_text_iter_get_line_offset iter) 1)
  in
  gtk_label_set_text cursor_str.

Definition text_viewer_window__open_file_dialog : M unit :=
  call Call_gtk_file_dialog_open.

(** What [text_viewer_window_class_init] binds: the template and its
    children. *)
Record WidgetClass := mkClass {
  template_resource : string;
  template_children : list string
}.

Definition text_viewer_window_class_init : WidgetClass :=
  mkClass "/com/example/TextViewer/text-viewer-window.ui"
          ["header_bar"; "main_text_view"; "open_button"; "cursor_pos"]%string.

(** What [text_viewer_window_init] wires: the actions of the window,
    by name, and the handler of [notify::cursor-position] on the buffer
    of [main_text_view]. *)
Record Connections := mkConnections {
  actions : list (string * M unit);
  buffer_notify_cursor_position : M unit
}.

Definition text_viewer_window_init : Connections :=
  mkConnections
    [("open"%string, text_viewer_window__open_file_dialog)]
    text_view_window__update_cursor_postion.

(** The buffer calls of the window run the connected handler. *)
Definition notify : M unit :=
  buffer_notify_cursor_position text_viewer_window_init.

(** [info] is what [g_file_query_info (file, "standard::display-name",
    ...)] returns when the read completes. *)
Definition open_file_complete (file : GFile) (result : GAsyncResult)
  (info : option GFileInfo) : M unit :=
  let '(contents, length, error) := g_file_load_contents_finish result in
  let display_name :=
    match info with
    | Some i =>
        g_strdup (g_file_info_get_attribute_string i "standard::display-name")
    | None => g_file_get_basename file
    end in
  match error with
  | Some e =>
      g_printerr ("Unable to open " ++ ldquo ++ fmt_s (g_file_peek_path file)
                  ++ rdquo ++ ": " ++ message e ++ LF)%string
  | None =>
      valid <- g_utf8_validate contents length ;;
      if negb valid then
        g_printerr ("Unable to load the contents of " ++ ldquo
                    ++ fmt_s (g_file_peek_path file) ++ rdquo ++ ": "
                    ++ "the file is not encoded with UTF-8" ++ LF)%string
      else
        self <- get ;;
        let buffer := main_text_view self in
        gtk_text_buffer_set_text notify contents (CInt.to_int length) ;;
        let start := gtk_text_buffer_get_start_iter buffer in
        gtk_text_buffer_place_cursor notify start ;;
        gtk_window_set_title display_name
  end.

Definition open_file (file : GFile) : M unit :=
  call (Call_g_file_load_contents_async file).

(** [chosen] is what [gtk_file_dialog_open_finish] returns: the file,
    or NULL when the user dismissed the dialog. *)
Definition on_open_response (chosen : option GFile) : M unit :=
  match chosen with
  | Some file => open_file file
  | None => ret tt
  end.

End Window.

(** ** What a run shows *)

Module Observe.

Import Printf Utf8 TextLines Gio Gtk Toolkit Window.
Local Open Scope gtk_scope.

(** What the calls wrote to the standard error stream, a [g_printerr]
    at a time. *)
Fixpoint stderr_of (calls : list Call) : list string :=
  match calls with
  | [] => []
  | Call_g_printerr line :: cs => line :: stderr_of cs
  | _ :: cs => stderr_of cs
  end.

(** The calls other than the updates of the label. *)
Fixpoint visible (calls : list Call) : list Call :=
  match calls with
  | [] => []
  | Call_gtk_label_set_text _ :: cs => visible cs
  | c :: cs => c :: visible cs
  end.

(** The reads started, a [g_file_load_contents_async] at a time. *)
Fixpoint loads_started (calls : list Call) : list GFile :=
  match calls with
  | [] => []
  | Call_g_file_load_contents_async file :: cs => file :: loads_started cs
  | _ :: cs => loads_started cs
  end.

Definition sets_text (c : Call) : bool :=
  match c with
  | Call_gtk_text_buffer_set_text _ _ => true
  | _ => false
  end.

Definition sets_title (c : Call) : bool :=
  match c with
  | Call_gtk_window_set_title _ => true
  | _ => false
  end.

(** The calls that read the bytes of [contents]. *)
Definition reads_contents (c : Call) : bool :=
  match c with
  | Call_g_utf8_validate _ _ | Call_gtk_text_buffer_set_text _ _ => true
  | _ => false
  end.

(** The label text for a buffer, as the handler computes it. *)
Definition cursor_label (buffer : GtkTextBuffer) : string :=
  let iter := gtk_text_buffer_get_iter_at_offset buffer
                (g_object_get_cursor_position buffer) in
  g_strdup_printf_Ln_Col (CInt.add (gtk_text_iter_get_line iter) 1)
                         (CInt.add (gtk_text_iter_get_line_offset iter) 1).

(** The text that [gtk_text_buffer_set_text (buffer, bytes, len)] leaves
    in the buffer. *)
Definition text_set (bytes : list byte) (len : Z) : list gunichar :=
  let len := if len <? 0 then CInt.to_int (Z.of_nat (strlen bytes))
             else len in
  if 0 <? len then
    let chunk := firstn (Z.to_nat len) bytes in
    if g_utf8_validate_len chunk then
      match utf8_decode chunk with
      | Some chars => chars
      | None => []
      end
    else []
  else [].

(** The display name [open_file_complete] computes for a file. *)
Definition display_name_of (file : GFile) (info : option GFileInfo)
  : option string :=
  match info with
  | Some i => g_file_info_get_attribute_string i "standard::display-name"
  | None => g_file_get_basename file
  end.

(** The user invokes "open", the dialog answers with [file], and the
    read it starts completes with [result]. *)
Definition open_and_select (file : GFile) (result : GAsyncResult)
  (info : option GFileInfo) : M unit :=
  text_viewer_window__open_file_dialog ;;
  on_open_response (Some file) ;;
  open_file_complete file result info.

(** The diagnostic lines as the spec words them, with ASCII quotation
    marks. *)
Definition spec_not_utf8_line (path : string) : string :=
  ("Unable to load the contents of " ++ dquote ++ path ++ dquote
   ++ ": the file is not encoded with UTF-8")%string.

Definition spec_unable_to_open_line (path msg : string) : string :=
  ("Unable to open " ++ dquote ++ path ++ dquote ++ ": " ++ msg)%string.

End Observe.

(** ** Sample files and windows *)

Module Samples.

Import Utf8 Gio Gtk.

Definition notes_file : GFile :=
  mkFile (Some "/tmp/notes.txt") (Some "notes.txt").

Definition notes_info : GFileInfo :=
  mkInfo [("standard::display-name", "Notes")].

Definition data_file : GFile :=
  mkFile (Some "/tmp/data.bin") (Some "data.bin").

(** A window showing "hi", a line feed and "x", the cursor before the
    "x". *)
Definition old_window : TextViewerWindow :=
  mkWindow (Some "Text Viewer") (mkBuffer [104; 105; 10; 120] 3)
           "Ln 2, Col 1".

Definition hi_bytes : list byte := [x68; x69].
Definition nul_bytes : list byte := [x00].
Definition bad_bytes : list byte := [xff].

Definition not_found : GError := mkError "No such file or directory".

(** A file of 2^31 letters: one byte more than an [int] counts. *)
Definition two_gib_bytes : list byte := repeat x61 (Z.to_nat 2147483648).

(** A document of [INT_MAX] letters on one line, the cursor at its
    end. *)
Definition long_line : list gunichar := repeat 97 (Z.to_nat CInt.INT_MAX).

Definition long_window : TextViewerWindow :=
  mkWindow None (mkBuffer long_line CInt.INT_MAX) "".

End Samples.

(** ** The main loop

    The callbacks run one at a time, each to its end, as the main loop
    delivers the events they are connected to. *)

Module MainLoop.

Import Printf Utf8 TextLines Gio Gtk Toolkit Window.
Local Open Scope gtk_scope.

Inductive Event : Type :=
| ActivateOpen
| DialogAnswered (chosen : option GFile)
| ReadCompleted (file : GFile) (result : GAsyncResult)
    (info : option GFileInfo)
| CursorMoved (offset : Z).

Fixpoint find_action (name : string) (l : list (string * M unit))
  : option (M unit) :=
  match l with
  | [] => None
  | (k, handler) :: l' =>
      if String.eqb k name then Some handler else find_action name l'
  end.

(** The "activate" signal of the action [name] of the window. *)
Definition activate (name : string) : M unit :=
  match find_action name (actions text_viewer_window_init) with
  | Some handler => handler
  | None => ret tt
  end.

(** The user moves the insertion mark to [offset] (to the end when the
    offset is not in the document); the buffer notifies. *)
Definition cursor_moved (offset : Z) : M unit :=
  self <- get ;;
  let buffer := main_text_view self in
  let iter := gtk_text_buffer_get_iter_at_offset buffer offset in
  set_buffer (mkBuffer (text buffer) (iter_offset iter)) ;;
  notify.

Definition dispatch (e : Event) : M unit :=
  match e with
  | ActivateOpen => activate "open"
  | DialogAnswered chosen => on_open_response chosen
  | ReadCompleted file result info => open_file_complete file result info
  | CursorMoved offset => cursor_moved offset
  end.

Fixpoint run (events : list Event) : M unit :=
  match events with
  | [] => ret tt
  | e :: events' => dispatch e ;; run events'
  end.

(** The completion of a read that passes the validation. *)
Definition displays (e : Event) : bool :=
  match e with
  | ReadCompleted _ (Loaded bytes) _ => g_utf8_validate_len bytes
  | _ => false
  end.

(** The completion of a read that failed, or whose bytes do not pass
    the validation. *)
Definition fails_to_load (e : Event) : bool :=
  match e with
  | ReadCompleted _ (Loaded bytes) _ => negb (g_utf8_validate_len bytes)
  | ReadCompleted _ (Failed _) _ => true
  | _ => false
  end.

(** The files the dialogs answered with, in order. *)
Fixpoint chosen_files (events : list Event) : list GFile :=
  match events with
  | [] => []
  | DialogAnswered (Some file) :: events' => file :: chosen_files events'
  | _ :: events' => chosen_files events'
  end.

Definition is_activate_open (e : Event) : bool :=
  match e with
  | ActivateOpen => true
  | _ => false
  end.

Definition opens_dialog (c : Call) : bool :=
  match c with
  | Call_gtk_file_dialog_open => true
  | _ => false
  end.

(** The events after which the buffer has notified: a move of the
    cursor, and a load that passes the validation (it places the
    cursor). *)
Definition notifies (e : Event) : bool :=
  match e with
  | CursorMoved _ => true
  | _ => displays e
  end.

Fixpoint last_char (s : string) : option ascii :=
  match s with
  | EmptyString => None
  | String c s' =>
      match last_char s' with
      | Some d => Some d
      | None => Some c
      end
  end.

(** A line that starts with "Unable to " and ends with a line feed. *)
Definition diagnostic_line (line : string) : bool :=
  String.prefix "Unable to " line
  && match last_char line with
     | Some c => Ascii.eqb c "010"%char
     | None => false
     end.

(** The string holds a line feed. *)
Fixpoint has_lf (s : string) : bool :=
  match s with
  | EmptyString => false
  | String c s' => Ascii.eqb c "010"%char || has_lf s'
  end.

(** The line feeds of a string: the lines it ends. *)
Fixpoint line_feeds (s : string) : nat :=
  match s with
  | EmptyString => O
  | String c s' =>
      if Ascii.eqb c "010"%char then S (line_feeds s') else line_feeds s'
  end.

(** The standard error stream: the messages of the [g_printerr] calls,
    one after the other. *)
Definition stream (calls : list Call) : string :=
  String.concat "" (Observe.stderr_of calls).

(** The lines [lines], each ended by a line feed, one after the
    other. *)
Definition terminated (lines : list string) : string :=
  String.concat "" (map (fun l => (l ++ LF)%string) lines).

(** A line of the stream written by the window: it starts with
    "Unable to " and holds no line feed. *)
Definition plain_diagnostic (line : string) : bool :=
  String.prefix "Unable to " line && negb (has_lf line).

(** What [open_file_complete] prints of a completed read holds no line
    feed: the path, when the read failed or its bytes are rejected, and
    the message of the error, when the read failed. *)
Definition plain_names (e : Event) : bool :=
  match e with
  | ReadCompleted file (Failed err) _ =>
      negb (has_lf (fmt_s (g_file_peek_path file)))
      && negb (has_lf (message err))
  | ReadCompleted file (Loaded bytes) _ =>
      g_utf8_validate_len bytes
      || negb (has_lf (fmt_s (g_file_peek_path file)))
  | _ => true
  end.

(** The read succeeded with bytes that decode as UTF-8 and hold no nul
    byte. *)
Definition accepted (result : GAsyncResult) : bool :=
  match result with
  | Loaded bytes => no_nul bytes && is_some (utf8_decode bytes)
  | Failed _ => false
  end.

(** The insertion mark is in the document. *)
Definition cursor_in_bounds (w : TextViewerWindow) : Prop :=
  0 <= cursor_position (main_text_view w)
    <= Z.of_nat (List.length (text (main_text_view w))).

(** The label shows what the handler computes for the buffer as it
    is. *)
Definition label_in_sync (w : TextViewerWindow) : Prop :=
  cursor_pos w = Observe.cursor_label (main_text_view w).

End MainLoop.

(** * Properties

    ** UTF-8: the toolkit's validation against the decoding *)

Module Utf8Facts.
Import Utf8.

Lemma byte_val_range b : 0 <= byte_val b <= 255.
Proof.
  unfold byte_val. pose proof (Byte.to_N_bounded b). lia.
Qed.

(** Induction on lists by length: the scans step over one to four
    bytes at a time. *)
Lemma list_length_ind {A} (P : list A -> Prop) :
  (forall l, (forall l', (List.length l' < List.length l)%nat -> P l') -> P l) ->
  forall l, P l.
Proof.
  intros step l.
  assert (H : forall n l', (List.length l' < n)%nat -> P l').
  { induction n as [|n IH]; intros l' Hl'.
    - lia.
    - apply step. intros l'' Hl''. apply IH. lia. }
  apply (H (S (List.length l))). lia.
Qed.

Lemma is_cont_nonzero v : is_cont v = true -> (v =? 0) = false.
Proof.
  unfold is_cont, in_range. intros H.
  apply andb_true_iff in H. destruct H as [H _].
  apply Z.leb_le in H. apply Z.eqb_neq. lia.
Qed.

Lemma second_of_3_nonzero v1 v2 : second_of_3 v1 v2 = true -> (v2 =? 0) = false.
Proof.
  unfold second_of_3, is_cont, in_range. intros H.
  apply Z.eqb_neq.
  destruct (v1 =? 224); [|destruct (v1 =? 237)];
    apply andb_true_iff in H; destruct H as [H _];
    apply Z.leb_le in H; lia.
Qed.

Lemma second_of_4_nonzero v1 v2 : second_of_4 v1 v2 = true -> (v2 =? 0) = false.
Proof.
  unfold second_of_4, is_cont, in_range. intros H.
  apply Z.eqb_neq.
  destruct (v1 =? 240); [|destruct (v1 =? 244)];
    apply andb_true_iff in H; destruct H as [H _];
    apply Z.leb_le in H; lia.
Qed.

Lemma is_some_option_map {A B} (f : A -> B) o :
  is_some (option_map f o) = is_some o.
Proof. destruct o; reflexivity. Qed.

(** Settles the comparisons of the goal that the hypotheses decide. *)
Ltac decide_tests :=
  repeat match goal with
    | |- context [?a <? ?b] =>
        first [ replace (a <? b) with true by (symmetry; apply Z.ltb_lt; lia)
              | replace (a <? b) with false by (symmetry; apply Z.ltb_ge; lia) ]
    | |- context [?a <=? ?b] =>
        first [ replace (a <=? b) with true by (symmetry; apply Z.leb_le; lia)
              | replace (a <=? b) with false by (symmetry; apply Z.leb_gt; lia) ]
    | |- context [?a =? ?b] =>
        first [ replace (a =? b) with true by (symmetry; apply Z.eqb_eq; lia)
              | replace (a =? b) with false by (symmetry; apply Z.eqb_neq; lia) ]
    end;
  cbn [andb negb orb].

Ltac drop_right :=
  cbn [no_nul forallb andb is_some]; now rewrite ?andb_false_r.

(** The toolkit's validation accepts exactly the texts that decode and
    hold no nul byte. *)
Lemma g_utf8_validate_len_spec bs :
  g_utf8_validate_len bs = no_nul bs && is_some (utf8_decode bs).
Proof.
  induction bs as [bs IH] using list_length_ind.
  destruct bs as [|b1 r1]; [reflexivity|].
  cbn [g_utf8_validate_len utf8_decode no_nul forallb].
  fold (no_nul r1).
  pose proof (byte_val_range b1) as R1.
  set (v1 := byte_val b1) in *.
  unfold in_range.
  assert (Hv : v1 = 0 \/ 0 < v1 < 128 \/ 128 <= v1 < 194 \/ 194 <= v1 < 224
               \/ 224 <= v1 < 240 \/ 240 <= v1 < 245 \/ 245 <= v1) by lia.
  destruct Hv as [Hv|[Hv|[Hv|[Hv|[Hv|[Hv|Hv]]]]]]; decide_tests.
  - reflexivity.
  - rewrite is_some_option_map. apply IH. cbn. lia.
  - now rewrite andb_false_r.
  - destruct r1 as [|b2 r2]; [reflexivity|].
    cbn [no_nul forallb]. fold (no_nul r2).
    destruct (is_cont (byte_val b2)) eqn:C2; [|drop_right].
    rewrite (is_cont_nonzero _ C2), is_some_option_map.
    cbn [negb andb]. apply IH. cbn. lia.
  - destruct r1 as [|b2 [|b3 r3]]; try reflexivity; try drop_right.
    cbn [no_nul forallb]. fold (no_nul r3).
    destruct (second_of_3 v1 (byte_val b2)) eqn:C2; [|drop_right].
    destruct (is_cont (byte_val b3)) eqn:C3; [|drop_right].
    rewrite (second_of_3_nonzero _ _ C2), (is_cont_nonzero _ C3).
    cbn [negb andb]. rewrite is_some_option_map. apply IH. cbn. lia.
  - destruct r1 as [|b2 [|b3 [|b4 r4]]]; try reflexivity; try drop_right.
    cbn [no_nul forallb]. fold (no_nul r4).
    destruct (second_of_4 v1 (byte_val b2)) eqn:C2; [|drop_right].
    destruct (is_cont (byte_val b3)) eqn:C3; [|drop_right].
    destruct (is_cont (byte_val b4)) eqn:C4; [|drop_right].
    rewrite (second_of_4_nonzero _ _ C2), (is_cont_nonzero _ C3),
      (is_cont_nonzero _ C4).
    cbn [negb andb]. rewrite is_some_option_map. apply IH. cbn. lia.
  - now rewrite andb_false_r.
Qed.

Lemma byte_of_Z_val b : byte_of_Z (byte_val b) = b.
Proof.
  unfold byte_of_Z, byte_val. now rewrite N2Z.id, Byte.of_to_N.
Qed.

Lemma in_range_true lo hi v : in_range lo hi v = true -> lo <= v <= hi.
Proof.
  unfold in_range. intros H. apply andb_true_iff in H.
  destruct H as [H1 H2]. apply Z.leb_le in H1. apply Z.leb_le in H2. lia.
Qed.

Lemma second_of_3_true v1 v2 :
  second_of_3 v1 v2 = true ->
  128 <= v2 <= 191 /\ (v1 = 224 -> 160 <= v2) /\ (v1 = 237 -> v2 <= 159).
Proof.
  unfold second_of_3, is_cont.
  destruct (Z.eqb_spec v1 224); [|destruct (Z.eqb_spec v1 237)];
    intros H; apply in_range_true in H; lia.
Qed.

Lemma second_of_4_true v1 v2 :
  second_of_4 v1 v2 = true ->
  128 <= v2 <= 191 /\ (v1 = 240 -> 144 <= v2) /\ (v1 = 244 -> v2 <= 143).
Proof.
  unfold second_of_4, is_cont.
  destruct (Z.eqb_spec v1 240); [|destruct (Z.eqb_spec v1 244)];
    intros H; apply in_range_true in H; lia.
Qed.

Lemma encode_1 b1 :
  byte_val b1 < 128 -> utf8_encode_char (byte_val b1) = [b1].
Proof.
  intros H. unfold utf8_encode_char. decide_tests.
  now rewrite byte_of_Z_val.
Qed.

Lemma encode_2 b1 b2 :
  194 <= byte_val b1 <= 223 -> is_cont (byte_val b2) = true ->
  utf8_encode_char ((byte_val b1 - 192) * 64 + (byte_val b2 - 128))
  = [b1; b2].
Proof.
  intros H1 H2. apply in_range_true in H2.
  set (v1 := byte_val b1) in *. set (v2 := byte_val b2) in *.
  unfold utf8_encode_char. decide_tests.
  replace (192 + ((v1 - 192) * 64 + (v2 - 128)) / 64) with v1
    by (Z.div_mod_to_equations; lia).
  replace (128 + ((v1 - 192) * 64 + (v2 - 128)) mod 64) with v2
    by (Z.div_mod_to_equations; lia).
  subst v1 v2. now rewrite !byte_of_Z_val.
Qed.

Lemma encode_3 b1 b2 b3 :
  224 <= byte_val b1 <= 239 ->
  second_of_3 (byte_val b1) (byte_val b2) = true ->
  is_cont (byte_val b3) = true ->
  utf8_encode_char ((byte_val b1 - 224) * 4096 + (byte_val b2 - 128) * 64
                    + (byte_val b3 - 128))
  = [b1; b2; b3].
Proof.
  intros H1 H2 H3. apply second_of_3_true in H2. apply in_range_true in H3.
  set (v1 := byte_val b1) in *. set (v2 := byte_val b2) in *.
  set (v3 := byte_val b3) in *.
  unfold utf8_encode_char. decide_tests.
  set (c := (v1 - 224) * 4096 + (v2 - 128) * 64 + (v3 - 128)).
  replace (224 + c / 4096) with v1
    by (subst c; Z.div_mod_to_equations; lia).
  replace (128 + (c / 64) mod 64) with v2
    by (subst c; Z.div_mod_to_equations; lia).
  replace (128 + c mod 64) with v3
    by (subst c; Z.div_mod_to_equations; lia).
  subst v1 v2 v3. now rewrite !byte_of_Z_val.
Qed.

Lemma encode_4 b1 b2 b3 b4 :
  240 <= byte_val b1 <= 244 ->
  second_of_4 (byte_val b1) (byte_val b2) = true ->
  is_cont (byte_val b3) = true ->
  is_cont (byte_val b4) = true ->
  utf8_encode_char ((byte_val b1 - 240) * 262144 + (byte_val b2 - 128) * 4096
                    + (byte_val b3 - 128) * 64 + (byte_val b4 - 128))
  = [b1; b2; b3; b4].
Proof.
  intros H1 H2 H3 H4. apply second_of_4_true in H2.
  apply in_range_true in H3. apply in_range_true in H4.
  set (v1 := byte_val b1) in *. set (v2 := byte_val b2) in *.
  set (v3 := byte_val b3) in *. set (v4 := byte_val b4) in *.
  unfold utf8_encode_char. decide_tests.
  set (c := (v1 - 240) * 262144 + (v2 - 128) * 4096 + (v3 - 128) * 64
            + (v4 - 128)).
  replace (240 + c / 262144) with v1
    by (subst c; Z.div_mod_to_equations; lia).
  replace (128 + (c / 4096) mod 64) with v2
    by (subst c; Z.div_mod_to_equations; lia).
  replace (128 + (c / 64) mod 64) with v3
    by (subst c; Z.div_mod_to_equations; lia).
  replace (128 + c mod 64) with v4
    by (subst c; Z.div_mod_to_equations; lia).
  subst v1 v2 v3 v4. now rewrite !byte_of_Z_val.
Qed.

Lemma option_map_Some {A B} (f : A -> B) o y :
  option_map f o = Some y -> exists x, o = Some x /\ y = f x.
Proof.
  destruct o as [x|]; cbn; intros H; [|discriminate].
  exists x. split; congruence.
Qed.

(** Decoding loses nothing: the decoded text encodes back to the
    bytes. *)
Lemma utf8_encode_decode bs :
  forall cs, utf8_decode bs = Some cs -> utf8_encode cs = bs.
Proof.
  induction bs as [bs IH] using list_length_ind.
  destruct bs as [|b1 r1]; intros cs.
  { cbn. intros [= <-]. reflexivity. }
  cbn [utf8_decode].
  pose proof (byte_val_range b1) as R1.
  unfold in_range.
  assert (Hv : byte_val b1 < 128 \/ 128 <= byte_val b1 < 194
               \/ 194 <= byte_val b1 < 224 \/ 224 <= byte_val b1 < 240
               \/ 240 <= byte_val b1 < 245 \/ 245 <= byte_val b1) by lia.
  destruct Hv as [Hv|[Hv|[Hv|[Hv|[Hv|Hv]]]]]; decide_tests;
    try discriminate.
  - intros H. apply option_map_Some in H. destruct H as (cs' & H & ->).
    cbn [utf8_encode flat_map]. rewrite encode_1 by lia.
    cbn [app]. f_equal. apply IH; [cbn; lia|exact H].
  - destruct r1 as [|b2 r2]; [discriminate|].
    destruct (is_cont (byte_val b2)) eqn:C2; [|discriminate].
    intros H. apply option_map_Some in H. destruct H as (cs' & H & ->).
    cbn [utf8_encode flat_map]. rewrite encode_2 by (auto; lia).
    cbn [app]. do 2 f_equal. apply IH; [cbn; lia|exact H].
  - destruct r1 as [|b2 [|b3 r3]]; try discriminate.
    destruct (second_of_3 (byte_val b1) (byte_val b2)) eqn:C2;
      [|discriminate].
    destruct (is_cont (byte_val b3)) eqn:C3; [|discriminate].
    cbn [andb].
    intros H. apply option_map_Some in H. destruct H as (cs' & H & ->).
    cbn [utf8_encode flat_map]. rewrite encode_3 by (auto; lia).
    cbn [app]. do 3 f_equal. apply IH; [cbn; lia|exact H].
  - destruct r1 as [|b2 [|b3 [|b4 r4]]]; try discriminate.
    destruct (second_of_4 (byte_val b1) (byte_val b2)) eqn:C2;
      [|discriminate].
    destruct (is_cont (byte_val b3)) eqn:C3; [|discriminate].
    destruct (is_cont (byte_val b4)) eqn:C4; [|discriminate].
    cbn [andb].
    intros H. apply option_map_Some in H. destruct H as (cs' & H & ->).
    cbn [utf8_encode flat_map]. rewrite encode_4 by (auto; lia).
    cbn [app]. do 4 f_equal. apply IH; [cbn; lia|exact H].
Qed.

Lemma utf8_decode_None_invalid bytes :
  utf8_decode bytes = None -> g_utf8_validate_len bytes = false.
Proof.
  intros H. rewrite g_utf8_validate_len_spec, H. apply andb_false_r.
Qed.

End Utf8Facts.

(** ** Lines and columns *)

Module TextLinesFacts.
Import Utf8 TextLines.

Lemma lines_cons txt : exists l ls, lines txt = l :: ls.
Proof.
  destruct txt as [|c rest]; cbn [lines]; [now eauto|].
  destruct (ends_line c rest); [now eauto|].
  destruct (lines rest); now eauto.
Qed.

Example lines_sample :
  lines [97; 10; 13; 10; 98; 13; 99; 8233]
  = [[97; 10]; [13; 10]; [98; 13]; [99; 8233]; []].
Proof. reflexivity. Qed.

Example locate_sample :
  map (locate (lines [97; 10; 13; 10; 98; 13; 99]) 0) [0; 1; 2; 3; 4; 7]%nat
  = [(0, 0); (0, 1); (1, 0); (1, 1); (2, 0); (3, 1)].
Proof. reflexivity. Qed.

Example line_col_sample :
  map (fun off => (line_of [97; 10; 13; 10; 98; 13; 99] off,
                   column_of [97; 10; 13; 10; 98; 13; 99] off))
      [0; 1; 2; 3; 4; 7]%nat
  = [(0, 0); (0, 1); (1, 0); (1, 1); (2, 0); (3, 1)].
Proof. reflexivity. Qed.

(** The lines, put end to end, are the text. *)
Lemma concat_lines txt : List.concat (lines txt) = txt.
Proof.
  induction txt as [|c rest IH]; [reflexivity|].
  cbn [lines]. destruct (ends_line c rest).
  - cbn. now rewrite IH.
  - destruct (lines rest) as [|l ls].
    + cbn in *. now rewrite <- IH.
    + cbn in *. now rewrite IH.
Qed.

Lemma locate_prepend txt :
  forall pre off ln,
    locate (prepend pre (lines txt)) ln (List.length pre + off)
    = line_col txt off ln (Z.of_nat (List.length pre)).
Proof.
  induction txt as [|c rest IH]; intros pre off ln.
  - cbn [lines prepend locate]. rewrite app_nil_r.
    replace (Nat.min (List.length pre + off) (List.length pre))
      with (List.length pre) by lia.
    destruct off; reflexivity.
  - cbn [lines]. destruct (ends_line c rest) eqn:E.
    + cbn [prepend locate].
      destruct (lines_cons rest) as (l & ls & Hl).
      rewrite Hl. rewrite <- Hl.
      rewrite length_app. cbn [List.length].
      destruct off as [|k].
      * replace (List.length pre + 0 <? List.length pre + 1)%nat with true
          by (symmetry; apply Nat.ltb_lt; lia).
        cbn [line_col]. f_equal. lia.
      * replace (List.length pre + S k <? List.length pre + 1)%nat with false
          by (symmetry; apply Nat.ltb_ge; lia).
        replace (List.length pre + S k - (List.length pre + 1))%nat with k
          by lia.
        cbn [line_col]. rewrite E.
        specialize (IH [] k (ln + 1)).
        cbn [List.length Nat.add Z.of_nat] in IH.
        rewrite <- IH. destruct (lines rest); [discriminate|reflexivity].
    + destruct (lines_cons rest) as (l & ls & Hl).
      rewrite Hl. cbn [prepend].
      destruct off as [|k].
      * cbn [line_col locate]. rewrite length_app. cbn [List.length].
        destruct ls.
        -- f_equal. lia.
        -- replace (List.length pre + 0 <? List.length pre + S (List.length l))%nat
             with true by (symmetry; apply Nat.ltb_lt; lia).
           f_equal. lia.
      * cbn [line_col]. rewrite E.
        specialize (IH (pre ++ [c]) k ln). rewrite Hl in IH.
        cbn [prepend] in IH. rewrite <- app_assoc in IH. cbn [app] in IH.
        rewrite length_app in IH. cbn [List.length] in IH.
        replace (List.length pre + S k)%nat with (List.length pre + 1 + k)%nat
          by lia.
        rewrite IH. f_equal. lia.
Qed.

(** The iterator found on the lines of the buffer is the position
    reached by walking the text. *)
Lemma locate_lines txt off :
  locate (lines txt) 0 off = (line_of txt off, column_of txt off).
Proof.
  pose proof (locate_prepend txt [] off 0) as H.
  cbn [List.length Nat.add Z.of_nat] in H.
  unfold line_of, column_of. rewrite <- H, <- surjective_pairing.
  destruct (lines_cons txt) as (l & ls & ->). reflexivity.
Qed.

Lemma line_col_bounds txt :
  forall off ln col,
    ln <= fst (line_col txt off ln col) <= ln + Z.of_nat off
    /\ (0 <= col ->
        0 <= snd (line_col txt off ln col) <= col + Z.of_nat off).
Proof.
  induction txt as [|c rest IH]; intros off ln col.
  - destruct off; cbn [line_col fst snd]; lia.
  - destruct off as [|k]; cbn [line_col]; [cbn [fst snd]; lia|].
    destruct (ends_line c rest).
    + specialize (IH k (ln + 1) 0). lia.
    + specialize (IH k ln (col + 1)). lia.
Qed.

Lemma line_of_bounds txt off : 0 <= line_of txt off <= Z.of_nat off.
Proof. unfold line_of. pose proof (line_col_bounds txt off 0 0). lia. Qed.

Lemma column_of_bounds txt off : 0 <= column_of txt off <= Z.of_nat off.
Proof. unfold column_of. pose proof (line_col_bounds txt off 0 0). lia. Qed.

(** At the start of the document: line 0, column 0. *)
Lemma line_col_start txt : line_of txt 0 = 0 /\ column_of txt 0 = 0.
Proof. destruct txt; split; reflexivity. Qed.

(** A line of [n] letters: walking to its end stays on the line. *)
Lemma line_col_repeat n :
  forall ln col,
    line_col (repeat 97 n) n ln col = (ln, col + Z.of_nat n).
Proof.
  induction n as [|n IH]; intros ln col.
  - cbn [repeat line_col]. f_equal. cbn. lia.
  - cbn [repeat line_col].
    change (ends_line 97 (repeat 97 n)) with false. cbv iota.
    rewrite IH. f_equal. lia.
Qed.

End TextLinesFacts.

(** ** Runs of the toolkit calls and of the callbacks *)

Module WindowFacts.
Import Printf Utf8 TextLines Gio Gtk Toolkit Window.
Import Observe Samples Utf8Facts TextLinesFacts.

Lemma update_cursor_run w :
  text_view_window__update_cursor_postion w
  = Done tt (mkWindow (title w) (main_text_view w)
                      (cursor_label (main_text_view w)))
         [Call_gtk_label_set_text (cursor_label (main_text_view w))].
Proof. reflexivity. Qed.

Lemma to_int_small z :
  CInt.INT_MIN <= z <= CInt.INT_MAX -> CInt.to_int z = z.
Proof.
  unfold CInt.to_int, CInt.INT_MIN, CInt.INT_MAX. intros H.
  rewrite Z.mod_small; lia.
Qed.

Lemma iter_at_offset txt c :
  0 <= c <= Z.of_nat (List.length txt) ->
  gtk_text_buffer_get_iter_at_offset (mkBuffer txt c) c
  = mkIter c (line_of txt (Z.to_nat c)) (column_of txt (Z.to_nat c)).
Proof.
  intros H. unfold gtk_text_buffer_get_iter_at_offset. cbn [text].
  replace ((c <? 0) || (Z.of_nat (List.length txt) <? c)) with false.
  - now rewrite locate_lines.
  - symmetry. apply orb_false_iff. split; apply Z.ltb_ge; lia.
Qed.

Lemma cursor_label_spec txt c :
  0 <= c <= Z.of_nat (List.length txt) ->
  Z.of_nat (List.length txt) < CInt.INT_MAX ->
  cursor_label (mkBuffer txt c)
  = ("Ln " ++ fmt_d (line_of txt (Z.to_nat c) + 1)
     ++ ", Col " ++ fmt_d (column_of txt (Z.to_nat c) + 1))%string.
Proof.
  intros Hc Hlen. unfold cursor_label.
  cbn [g_object_get_cursor_position cursor_position].
  rewrite iter_at_offset by exact Hc.
  cbn [gtk_text_iter_get_line gtk_text_iter_get_line_offset
       iter_line iter_line_offset].
  pose proof (line_of_bounds txt (Z.to_nat c)).
  pose proof (column_of_bounds txt (Z.to_nat c)).
  unfold CInt.add, CInt.INT_MAX in *.
  rewrite !to_int_small by (unfold CInt.INT_MIN, CInt.INT_MAX; lia).
  reflexivity.
Qed.

Lemma cursor_label_start txt : cursor_label (mkBuffer txt 0) = "Ln 1, Col 1"%string.
Proof.
  unfold cursor_label.
  cbn [g_object_get_cursor_position cursor_position].
  rewrite iter_at_offset by lia.
  change (Z.to_nat 0) with 0%nat.
  destruct (line_col_start txt) as [-> ->]. reflexivity.
Qed.

Lemma stderr_of_visible calls : stderr_of (visible calls) = stderr_of calls.
Proof.
  induction calls as [|c cs IH]; [reflexivity|].
  destruct c; cbn [visible stderr_of]; now rewrite ?IH.
Qed.

Lemma visible_app c1 c2 : visible (c1 ++ c2) = visible c1 ++ visible c2.
Proof.
  induction c1 as [|c c1 IH]; [reflexivity|].
  destruct c; cbn [visible app]; now rewrite IH.
Qed.

Lemma bind_Done {A B} (m : M A) (k : A -> M B) w a w1 c1 :
  m w = Done a w1 c1 ->
  bind m k w = match k a w1 with
               | Done b w2 c2 => Done b w2 (c1 ++ c2)
               | Fault => Fault
               end.
Proof. intros H. unfold bind. now rewrite H. Qed.

Lemma bind_Done_Done {A B} (m : M A) (k : A -> M B) w a w1 c1 b w2 c2 :
  m w = Done a w1 c1 -> k a w1 = Done b w2 c2 ->
  bind m k w = Done b w2 (c1 ++ c2).
Proof. intros H1 H2. rewrite (bind_Done _ _ _ _ _ _ H1). now rewrite H2. Qed.

Lemma notify_run w :
  notify w
  = Done tt (mkWindow (title w) (main_text_view w)
                      (cursor_label (main_text_view w)))
         [Call_gtk_label_set_text (cursor_label (main_text_view w))].
Proof. reflexivity. Qed.

Lemma set_buffer_run buffer w :
  set_buffer buffer w = Done tt (mkWindow (title w) buffer (cursor_pos w)) [].
Proof. reflexivity. Qed.

Lemma delete_bounds_run w :
  exists w' calls,
    delete_bounds notify w = Done tt w' calls
    /\ title w' = title w
    /\ text (main_text_view w') = []
    /\ visible calls = [].
Proof.
  unfold delete_bounds.
  destruct (text (main_text_view w)) as [|c txt] eqn:E.
  - exists w, []. rewrite (bind_Done _ _ w w w []) by reflexivity.
    rewrite E. cbn. auto.
  - eexists _, _. rewrite (bind_Done _ _ w w w []) by reflexivity.
    rewrite E.
    erewrite bind_Done_Done;
      [|apply set_buffer_run|apply notify_run].
    cbn. auto.
Qed.

Lemma insert_at_start_run str w :
  text (main_text_view w) = [] ->
  exists w' calls,
    insert_at_start notify str w = Done tt w' calls
    /\ title w' = title w
    /\ text (main_text_view w')
       = (if g_utf8_validate_len str
          then match utf8_decode str with Some chars => chars | None => [] end
          else [])
    /\ visible calls = [].
Proof.
  intros Hempty. unfold insert_at_start.
  destruct (g_utf8_validate_len str); [|exists w, []; cbn; auto].
  destruct (utf8_decode str) as [chars|]; [|exists w, []; cbn; auto].
  eexists _, _. rewrite (bind_Done _ _ w w w []) by reflexivity.
  erewrite bind_Done_Done; [|apply set_buffer_run|apply notify_run].
  cbn. rewrite Hempty, app_nil_r. auto.
Qed.

Lemma gtk_text_buffer_set_text_run bytes len w :
  exists w' calls,
    gtk_text_buffer_set_text notify (Some bytes) len w = Done tt w' calls
    /\ title w' = title w
    /\ text (main_text_view w') = text_set bytes len
    /\ visible calls = [Call_gtk_text_buffer_set_text bytes len].
Proof.
  unfold gtk_text_buffer_set_text, text_set.
  set (len' := if len <? 0 then CInt.to_int (Z.of_nat (strlen bytes))
               else len).
  destruct (delete_bounds_run w) as (w1 & c1 & E1 & T1 & X1 & V1).
  destruct (0 <? len').
  - destruct (insert_at_start_run (firstn (Z.to_nat len') bytes) w1 X1)
      as (w2 & c2 & E2 & T2 & X2 & V2).
    eexists _, _. split.
    + erewrite bind_Done_Done; [reflexivity|reflexivity|].
      erewrite bind_Done_Done; [reflexivity|exact E1|exact E2].
    + rewrite T2, T1, X2. cbn [app visible].
      rewrite visible_app, V1, V2. auto.
  - eexists _, _. split.
    + erewrite bind_Done_Done; [reflexivity|reflexivity|].
      erewrite bind_Done_Done; [reflexivity|exact E1|reflexivity].
    + rewrite T1, X1. cbn [app visible].
      rewrite visible_app, V1. auto.
Qed.

Lemma gtk_text_buffer_place_cursor_start buffer w :
  gtk_text_buffer_place_cursor notify (gtk_text_buffer_get_start_iter buffer) w
  = Done tt (mkWindow (title w) (mkBuffer (text (main_text_view w)) 0)
                      "Ln 1, Col 1"%string)
         [Call_gtk_text_buffer_place_cursor 0;
          Call_gtk_label_set_text "Ln 1, Col 1"%string].
Proof.
  unfold gtk_text_buffer_place_cursor.
  cbn [gtk_text_buffer_get_start_iter iter_offset].
  erewrite bind_Done_Done; [|reflexivity|].
  2:{ rewrite (bind_Done _ _ w w w []) by reflexivity.
      erewrite bind_Done_Done; [reflexivity|apply set_buffer_run|apply notify_run]. }
  cbn -[cursor_label]. now rewrite cursor_label_start.
Qed.

Lemma validate_run bytes len w :
  g_utf8_validate (Some bytes) len w
  = Done (if len <? 0
          then g_utf8_validate_len (firstn (strlen bytes) bytes)
          else g_utf8_validate_len (firstn (Z.to_nat len) bytes))
         w [Call_g_utf8_validate bytes len].
Proof. reflexivity. Qed.

Lemma validate_all_run bytes w :
  g_utf8_validate (Some bytes) (Z.of_nat (List.length bytes)) w
  = Done (g_utf8_validate_len bytes) w
         [Call_g_utf8_validate bytes (Z.of_nat (List.length bytes))].
Proof.
  rewrite validate_run.
  replace (Z.of_nat (List.length bytes) <? 0) with false
    by (symmetry; apply Z.ltb_ge; lia).
  now rewrite Nat2Z.id, firstn_all.
Qed.

(** A load that passes the validation: the window it leaves and the
    calls it makes, the updates of the label apart. *)
Lemma load_success_run file bytes info w :
  g_utf8_validate_len bytes = true ->
  exists calls,
    open_file_complete file (Loaded bytes) info w
    = Done tt
        (mkWindow (display_name_of file info)
           (mkBuffer (text_set bytes (CInt.to_int (Z.of_nat (List.length bytes)))) 0)
           "Ln 1, Col 1"%string)
        calls
    /\ visible calls
       = [Call_g_utf8_validate bytes (Z.of_nat (List.length bytes));
          Call_gtk_text_buffer_set_text bytes
            (CInt.to_int (Z.of_nat (List.length bytes)));
          Call_gtk_text_buffer_place_cursor 0;
          Call_gtk_window_set_title (display_name_of file info)].
Proof.
  intros Hvalid.
  unfold open_file_complete. cbn [g_file_load_contents_finish].
  set (len := Z.of_nat (List.length bytes)).
  destruct (gtk_text_buffer_set_text_run bytes (CInt.to_int len) w)
    as (w1 & c1 & E1 & T1 & X1 & V1).
  rewrite (bind_Done _ _ _ _ _ _ (validate_all_run bytes w)).
  rewrite Hvalid. cbn [negb].
  rewrite (bind_Done _ _ w w w []) by reflexivity.
  rewrite (bind_Done _ _ _ _ _ _ E1).
  rewrite (bind_Done _ _ _ _ _ _
             (gtk_text_buffer_place_cursor_start (main_text_view w) w1)).
  unfold gtk_window_set_title, g_strdup.
  eexists. split.
  - cbn. rewrite X1. reflexivity.
  - cbn [visible]. rewrite visible_app, V1. reflexivity.
Qed.

Lemma load_invalid_run file bytes info w :
  g_utf8_validate_len bytes = false ->
  open_file_complete file (Loaded bytes) info w
  = Done tt w
      [Call_g_utf8_validate bytes (Z.of_nat (List.length bytes));
       Call_g_printerr
         ("Unable to load the contents of " ++ ldquo
          ++ fmt_s (g_file_peek_path file) ++ rdquo ++ ": "
          ++ "the file is not encoded with UTF-8" ++ LF)%string].
Proof.
  intros Hinvalid.
  unfold open_file_complete. cbn [g_file_load_contents_finish].
  rewrite (bind_Done _ _ _ _ _ _ (validate_all_run bytes w)).
  rewrite Hinvalid. reflexivity.
Qed.

Lemma load_failed_run file err info w :
  open_file_complete file (Failed err) info w
  = Done tt w
      [Call_g_printerr
         ("Unable to open " ++ ldquo ++ fmt_s (g_file_peek_path file)
          ++ rdquo ++ ": " ++ message err ++ LF)%string].
Proof. reflexivity. Qed.

Lemma text_set_valid bytes chars :
  g_utf8_validate_len bytes = true ->
  utf8_decode bytes = Some chars ->
  Z.of_nat (List.length bytes) <= CInt.INT_MAX ->
  text_set bytes (CInt.to_int (Z.of_nat (List.length bytes))) = chars.
Proof.
  intros Hvalid Hdec Hlen. unfold text_set.
  rewrite to_int_small by (unfold CInt.INT_MIN, CInt.INT_MAX in *; lia).
  replace (Z.of_nat (List.length bytes) <? 0) with false
    by (symmetry; apply Z.ltb_ge; lia).
  destruct (Z.ltb_spec 0 (Z.of_nat (List.length bytes))) as [Hpos|Hzero].
  - now rewrite Nat2Z.id, firstn_all, Hvalid, Hdec.
  - destruct bytes; [|cbn [List.length] in Hzero; lia].
    cbn in Hdec. congruence.
Qed.

Lemma strlen_repeat n : strlen (repeat x61 n) = n.
Proof.
  induction n as [|n IH]; [reflexivity|].
  cbn [repeat strlen]. change (byte_val x61 =? 0) with false.
  cbv iota. now rewrite IH.
Qed.

Lemma text_set_negative bytes len :
  len < 0 -> CInt.to_int (Z.of_nat (strlen bytes)) <= 0 ->
  text_set bytes len = [].
Proof.
  intros Hlen Hstr. unfold text_set.
  rewrite (proj2 (Z.ltb_lt _ _) Hlen), (proj2 (Z.ltb_ge _ _) Hstr).
  reflexivity.
Qed.

Lemma validate_repeat n : g_utf8_validate_len (repeat x61 n) = true.
Proof.
  induction n as [|n IH]; [reflexivity|].
  cbn [repeat g_utf8_validate_len].
  change (byte_val x61 =? 0) with false.
  change (byte_val x61 <? 128) with true. cbv iota. exact IH.
Qed.

Lemma utf8_decode_repeat n :
  utf8_decode (repeat x61 n) = Some (repeat 97 n).
Proof.
  induction n as [|n IH]; [reflexivity|].
  cbn [repeat utf8_decode].
  change (byte_val x61 <? 128) with true. cbv iota.
  rewrite IH. reflexivity.
Qed.

(** Past the range of [int] the text set is not the file's: the length
    of a file of 2^31 letters is passed as a negative [int], and the
    buffer is left empty. *)
Lemma text_set_two_gib :
  Z.of_nat (List.length two_gib_bytes) = 2147483648
  /\ text_set two_gib_bytes
       (CInt.to_int (Z.of_nat (List.length two_gib_bytes)))
     = [].
Proof.
  assert (H : Z.of_nat (Z.to_nat 2147483648) = 2147483648).
  { apply Z2Nat.id. discriminate. }
  unfold two_gib_bytes. rewrite repeat_length, H.
  split; [reflexivity|].
  apply text_set_negative.
  - reflexivity.
  - rewrite strlen_repeat, H. discriminate.
Qed.

Lemma cursor_label_repeat n c :
  c = Z.of_nat n ->
  cursor_label (mkBuffer (repeat 97 n) c)
  = g_strdup_printf_Ln_Col (CInt.add 0 1) (CInt.add c 1).
Proof.
  intros ->. unfold cursor_label.
  cbn [g_object_get_cursor_position cursor_position].
  rewrite iter_at_offset by (rewrite repeat_length; lia).
  unfold line_of, column_of. rewrite Nat2Z.id, line_col_repeat.
  reflexivity.
Qed.

(** Whatever the read brought, the handler returns. *)
Lemma open_file_complete_returns file result info w :
  exists w' calls, open_file_complete file result info w = Done tt w' calls.
Proof.
  destruct result as [bytes|err].
  - destruct (g_utf8_validate_len bytes) eqn:Hvalid.
    + destruct (load_success_run file bytes info w Hvalid) as (calls & E & _).
      eauto.
    + rewrite (load_invalid_run file bytes info w Hvalid). eauto.
  - rewrite load_failed_run. eauto.
Qed.

Lemma existsb_visible (p : Call -> bool) calls :
  (forall s, p (Call_gtk_label_set_text s) = false) ->
  existsb p (visible calls) = existsb p calls.
Proof.
  intros Hp. induction calls as [|c cs IH]; [reflexivity|].
  destruct c; cbn [visible existsb]; rewrite ?IH, ?Hp; reflexivity.
Qed.

Lemma In_visible c calls :
  (forall s, c <> Call_gtk_label_set_text s) ->
  In c calls -> In c (visible calls).
Proof.
  intros Hc. induction calls as [|d cs IH]; [easy|].
  intros [->|Hin].
  - destruct c; cbn [visible]; try (now left). now destruct (Hc str).
  - destruct d; cbn [visible]; auto using in_cons.
Qed.

Lemma visible_In c calls : In c (visible calls) -> In c calls.
Proof.
  induction calls as [|d cs IH]; [easy|].
  destruct d; cbn [visible]; intros H; try (destruct H as [H|H]);
    try (now left); right; now apply IH.
Qed.

Lemma on_open_response_file file w :
  on_open_response (Some file) w
  = Done tt w [Call_g_file_load_contents_async file].
Proof. reflexivity. Qed.

Lemma open_and_select_run file result info w w' calls :
  open_file_complete file result info w = Done tt w' calls ->
  open_and_select file result info w
  = Done tt w'
      (Call_gtk_file_dialog_open
       :: Call_g_file_load_contents_async file :: calls).
Proof.
  intros H. unfold open_and_select.
  rewrite (bind_Done_Done _ _ w tt w [Call_gtk_file_dialog_open] tt w'
             (Call_g_file_load_contents_async file :: calls));
    [reflexivity|reflexivity|].
  now rewrite (bind_Done_Done _ _ w tt w
                 [Call_g_file_load_contents_async file] tt w' calls).
Qed.

(** Without the guard the validation would read through the NULL
    [contents] of a failed read. *)
Lemma validate_failed_read_faults err max_len w :
  g_utf8_validate (fst (fst (g_file_load_contents_finish (Failed err))))
    max_len w
  = Fault.
Proof. reflexivity. Qed.

End WindowFacts.

(** * The claims *)

Module Claims.

Import Printf Utf8 TextLines Gio Gtk Toolkit Window.
Import Observe Samples Utf8Facts TextLinesFacts WindowFacts.
Local Open Scope gtk_scope.

(** ** C1: a valid file is displayed *)

(** C1, as stated, fails: the one-byte file holding a nul byte is valid
    UTF-8 (it decodes to U+0000), its read succeeds, and
    [open_file_complete] reports it as not UTF-8 and leaves the window
    as it was: the text is not the decoded file, the title is not the
    display name. *)
Lemma C1_counterexample_nul_byte :
  utf8_decode nul_bytes = Some [0]
  /\ open_file_complete notes_file (Loaded nul_bytes) None old_window
     = Done tt old_window
         [Call_g_utf8_validate nul_bytes 1;
          Call_g_printerr
            ("Unable to load the contents of " ++ ldquo ++ "/tmp/notes.txt"
             ++ rdquo ++ ": the file is not encoded with UTF-8" ++ LF)%string]
  /\ text (main_text_view old_window) <> [0]
  /\ title old_window <> g_file_get_basename notes_file.
Proof.
  split; [reflexivity|]. split; [reflexivity|].
  split; intros H; discriminate H.
Qed.

(** C1, amended: for every file whose read succeeds and whose contents
    are valid UTF-8 with no nul byte and at most [INT_MAX] bytes long,
    [open_file_complete] returns with the text buffer holding exactly
    the decoded contents (they encode back to the file's bytes), the
    cursor at offset 0, the title set to the display name and nothing
    written to the standard error stream. *)
Theorem C1_load_valid_utf8 file bytes chars info w :
  utf8_decode bytes = Some chars ->
  no_nul bytes = true ->
  Z.of_nat (List.length bytes) <= CInt.INT_MAX ->
  exists w' calls,
    open_file_complete file (Loaded bytes) info w = Done tt w' calls
    /\ text (main_text_view w') = chars
    /\ utf8_encode (text (main_text_view w')) = bytes
    /\ cursor_position (main_text_view w') = 0
    /\ title w' = display_name_of file info
    /\ stderr_of calls = [].
Proof.
  intros Hdec Hnul Hlen.
  assert (Hvalid : g_utf8_validate_len bytes = true).
  { rewrite g_utf8_validate_len_spec, Hnul, Hdec. reflexivity. }
  destruct (load_success_run file bytes info w Hvalid) as (calls & E & V).
  rewrite (text_set_valid bytes chars Hvalid Hdec Hlen) in E.
  exists (mkWindow (display_name_of file info) (mkBuffer chars 0)
            "Ln 1, Col 1"%string), calls.
  split; [exact E|]. cbn [main_text_view text cursor_position title].
  repeat split.
  - apply utf8_encode_decode, Hdec.
  - rewrite <- (stderr_of_visible calls), V. reflexivity.
Qed.

(** The amended C1 at the two-byte file "hi". *)
Lemma C1_witness :
  exists w' calls,
    open_file_complete notes_file (Loaded hi_bytes) (Some notes_info)
      old_window
    = Done tt w' calls
    /\ text (main_text_view w') = [104; 105]
    /\ utf8_encode (text (main_text_view w')) = hi_bytes
    /\ cursor_position (main_text_view w') = 0
    /\ title w' = display_name_of notes_file (Some notes_info)
    /\ stderr_of calls = [].
Proof.
  apply (C1_load_valid_utf8 notes_file hi_bytes [104; 105]
           (Some notes_info) old_window).
  - reflexivity.
  - reflexivity.
  - cbn. unfold CInt.INT_MAX. lia.
Defined.

(** ** C2: a file that is not UTF-8 *)

(** C2, as stated, fails on the form of the line: for a file of the one
    byte FF at /tmp/notes.txt the line written puts the path between
    U+201C and U+201D, not between ASCII quotation marks, so it is not
    the line of the spec, with or without its line feed. *)
Lemma C2_counterexample_quotation_marks :
  utf8_decode bad_bytes = None
  /\ exists w' calls line,
       open_file_complete notes_file (Loaded bad_bytes) None old_window
       = Done tt w' calls
       /\ stderr_of calls = [line]
       /\ line = ("Unable to load the contents of " ++ ldquo
                  ++ "/tmp/notes.txt" ++ rdquo
                  ++ ": the file is not encoded with UTF-8" ++ LF)%string
       /\ line <> spec_not_utf8_line "/tmp/notes.txt"
       /\ line <> (spec_not_utf8_line "/tmp/notes.txt" ++ LF)%string.
Proof.
  split; [reflexivity|].
  eexists _, _, _. split; [vm_compute; reflexivity|].
  split; [reflexivity|]. split; [reflexivity|].
  split; intros H; discriminate H.
Qed.

(** C2, amended: for every file whose read succeeds but whose bytes are
    not valid UTF-8, [open_file_complete] returns the window unchanged
    (title, text, cursor position and label), sets neither the text nor
    the title, and writes exactly one line to the standard error stream:
    "Unable to load the contents of", the path as [%s] prints it between
    U+201C and U+201D, ": the file is not encoded with UTF-8" and a line
    feed. *)
Theorem C2_invalid_utf8_rejected file bytes info w :
  utf8_decode bytes = None ->
  exists calls,
    open_file_complete file (Loaded bytes) info w = Done tt w calls
    /\ stderr_of calls
       = [("Unable to load the contents of " ++ ldquo
           ++ fmt_s (g_file_peek_path file) ++ rdquo
           ++ ": the file is not encoded with UTF-8" ++ LF)%string]
    /\ existsb sets_text calls = false
    /\ existsb sets_title calls = false.
Proof.
  intros Hdec. apply utf8_decode_None_invalid in Hdec.
  eexists. split; [apply load_invalid_run, Hdec|].
  repeat split.
Qed.

(** The amended C2 at the file of the one byte FF. *)
Lemma C2_witness :
  exists calls,
    open_file_complete notes_file (Loaded bad_bytes) None old_window
    = Done tt old_window calls
    /\ stderr_of calls
       = [("Unable to load the contents of " ++ ldquo
           ++ fmt_s (g_file_peek_path notes_file) ++ rdquo
           ++ ": the file is not encoded with UTF-8" ++ LF)%string]
    /\ existsb sets_text calls = false
    /\ existsb sets_title calls = false.
Proof.
  apply (C2_invalid_utf8_rejected notes_file bad_bytes None old_window).
  reflexivity.
Defined.

(** ** C3: a read that fails *)

(** C3, as stated, fails on the form of the line: for the failed read of
    /tmp/notes.txt the line written puts the path between U+201C and
    U+201D, not between ASCII quotation marks, so it is not the line of
    the spec, with or without its line feed. *)
Lemma C3_counterexample_quotation_marks :
  exists w' calls line,
    open_file_complete notes_file (Failed not_found) None old_window
    = Done tt w' calls
    /\ stderr_of calls = [line]
    /\ line = ("Unable to open " ++ ldquo ++ "/tmp/notes.txt" ++ rdquo
               ++ ": No such file or directory" ++ LF)%string
    /\ line <> spec_unable_to_open_line "/tmp/notes.txt" (message not_found)
    /\ line <> (spec_unable_to_open_line "/tmp/notes.txt" (message not_found)
                ++ LF)%string.
Proof.
  eexists _, _, _. split; [vm_compute; reflexivity|].
  split; [reflexivity|]. split; [reflexivity|].
  split; intros H; discriminate H.
Qed.

(** C3, amended: for every file whose read fails, [open_file_complete]
    returns (no fault) with the window unchanged (title, text, cursor
    position and label), and its only call is one [g_printerr] of the
    line "Unable to open", the path as [%s] prints it between U+201C and
    U+201D, a colon, the error's message and a line feed. *)
Theorem C3_read_error_reported file err info w :
  exists calls,
    open_file_complete file (Failed err) info w = Done tt w calls
    /\ calls
       = [Call_g_printerr
            ("Unable to open " ++ ldquo ++ fmt_s (g_file_peek_path file)
             ++ rdquo ++ ": " ++ message err ++ LF)%string]
    /\ stderr_of calls
       = [("Unable to open " ++ ldquo ++ fmt_s (g_file_peek_path file)
           ++ rdquo ++ ": " ++ message err ++ LF)%string].
Proof.
  eexists. split; [apply load_failed_run|]. split; reflexivity.
Qed.

(** ** C4: the label of the cursor position *)

(** C4, as stated, fails at the end of the range of [int]: in a document
    of [INT_MAX] letters on one line with the cursor at its end (an
    offset between 0 and the document length), the column plus one is
    2147483648, and the label reads "Ln 1, Col -2147483648". *)
Lemma C4_counterexample_int_range :
  0 <= cursor_position (main_text_view long_window)
    <= Z.of_nat (List.length (text (main_text_view long_window)))
  /\ column_of long_line (Z.to_nat CInt.INT_MAX) + 1 = 2147483648
  /\ text_view_window__update_cursor_postion long_window
     = Done tt
         (mkWindow None (mkBuffer long_line CInt.INT_MAX)
            "Ln 1, Col -2147483648")
         [Call_gtk_label_set_text "Ln 1, Col -2147483648"].
Proof.
  assert (Hmax : CInt.INT_MAX = Z.of_nat (Z.to_nat CInt.INT_MAX)).
  { symmetry. apply Z2Nat.id. discriminate. }
  split; [|split].
  - unfold long_window, long_line.
    cbn [main_text_view text cursor_position].
    rewrite repeat_length, <- Hmax. split; [discriminate|apply Z.le_refl].
  - unfold column_of, long_line. rewrite line_col_repeat.
    cbn [snd]. rewrite <- Hmax. reflexivity.
  - rewrite update_cursor_run. unfold long_window, long_line.
    cbn [main_text_view title].
    rewrite (cursor_label_repeat _ _ Hmax). reflexivity.
Qed.

(** C4, amended: in a document of fewer than [INT_MAX] characters, for
    every cursor offset from 0 to the document length, the handler of
    the cursor-position notification leaves the label reading
    "Ln {line+1}, Col {col+1}", where line and col are the 0-based line
    and the 0-based column of the offset; it changes nothing else. *)
Theorem C4_cursor_label self :
  0 <= cursor_position (main_text_view self)
    <= Z.of_nat (List.length (text (main_text_view self))) ->
  Z.of_nat (List.length (text (main_text_view self))) < CInt.INT_MAX ->
  exists label,
    text_view_window__update_cursor_postion self
    = Done tt (mkWindow (title self) (main_text_view self) label)
           [Call_gtk_label_set_text label]
    /\ label
       = ("Ln "
          ++ fmt_d (line_of (text (main_text_view self))
                      (Z.to_nat (cursor_position (main_text_view self))) + 1)
          ++ ", Col "
          ++ fmt_d (column_of (text (main_text_view self))
                      (Z.to_nat (cursor_position (main_text_view self))) + 1)
         )%string.
Proof.
  intros Hc Hlen. eexists. split; [apply update_cursor_run|].
  destruct self as [t [txt c] l].
  cbn [main_text_view text cursor_position] in *.
  now apply cursor_label_spec.
Qed.

(** The amended C4 at a window showing two lines, the cursor at the
    start of the second. *)
Lemma C4_witness :
  exists label,
    text_view_window__update_cursor_postion old_window
    = Done tt (mkWindow (title old_window) (main_text_view old_window) label)
           [Call_gtk_label_set_text label]
    /\ label
       = ("Ln "
          ++ fmt_d (line_of (text (main_text_view old_window))
                      (Z.to_nat (cursor_position (main_text_view old_window)))
                    + 1)
          ++ ", Col "
          ++ fmt_d (column_of (text (main_text_view old_window))
                      (Z.to_nat (cursor_position (main_text_view old_window)))
                    + 1)
         )%string.
Proof.
  apply (C4_cursor_label old_window).
  - cbn. lia.
  - cbn. unfold CInt.INT_MAX. lia.
Defined.

(** ** C5: the title and the text change together *)

(** C5 fails on the code: the file of 2^31 letters is valid UTF-8 with
    no nul byte and its read succeeds, so the load is a success; its
    [gsize] length reaches [gtk_text_buffer_set_text] as a negative
    [int]; [open_file_complete] sets the title to the display name and
    leaves the text empty, where the decoded file has 2^31 characters:
    the title shows the new file and the text does not. *)
Theorem C5_two_gib_title_without_text info w :
  utf8_decode two_gib_bytes = Some (repeat 97 (Z.to_nat 2147483648))
  /\ Z.of_nat (List.length (repeat 97 (Z.to_nat 2147483648))) = 2147483648
  /\ no_nul two_gib_bytes = true
  /\ CInt.to_int (Z.of_nat (List.length two_gib_bytes)) = -2147483648
  /\ exists w' calls,
       open_file_complete notes_file (Loaded two_gib_bytes) info w
       = Done tt w' calls
       /\ existsb sets_title calls = true
       /\ title w' = display_name_of notes_file info
       /\ text (main_text_view w') = [].
Proof.
  assert (H : Z.of_nat (Z.to_nat 2147483648) = 2147483648).
  { apply Z2Nat.id. discriminate. }
  assert (Hvalid : g_utf8_validate_len two_gib_bytes = true)
    by apply validate_repeat.
  split; [apply utf8_decode_repeat|].
  split; [rewrite repeat_length; exact H|].
  split.
  { rewrite g_utf8_validate_len_spec in Hvalid.
    apply andb_true_iff in Hvalid.
    destruct Hvalid as [Hnul _]. exact Hnul. }
  split.
  { unfold two_gib_bytes. rewrite repeat_length, H. reflexivity. }
  destruct (load_success_run notes_file two_gib_bytes info w Hvalid)
    as (calls & E & V).
  destruct text_set_two_gib as [_ Hempty]. rewrite Hempty in E.
  eexists _, calls. split; [exact E|].
  split; [|split; reflexivity].
  rewrite <- (existsb_visible sets_title) by reflexivity.
  rewrite V. reflexivity.
Qed.

(** ** C6: a dismissed dialog *)

(** C6: when the dialog returns no file, [on_open_response] returns the
    window as it was and makes no call: nothing is written to the
    standard error stream and no read is started. *)
Theorem C6_cancel_does_nothing w :
  exists calls,
    on_open_response None w = Done tt w calls
    /\ calls = []
    /\ stderr_of calls = []
    /\ loads_started calls = [].
Proof.
  exists []. repeat split.
Qed.

(** ** C7: the display name *)

(** C7: on a load that passes the validation, the title set is the
    "standard::display-name" attribute of the file's info when the
    query returned one, and the base name of the file when it returned
    none. *)
Theorem C7_display_name file bytes info w :
  g_utf8_validate_len bytes = true ->
  exists w' calls,
    open_file_complete file (Loaded bytes) info w = Done tt w' calls
    /\ In (Call_gtk_window_set_title (title w')) calls
    /\ title w'
       = match info with
         | Some i =>
             g_file_info_get_attribute_string i "standard::display-name"
         | None => g_file_get_basename file
         end.
Proof.
  intros Hvalid.
  destruct (load_success_run file bytes info w Hvalid) as (calls & E & V).
  eexists _, calls. split; [exact E|]. cbn [title]. split; [|reflexivity].
  apply visible_In. rewrite V. cbn. auto.
Qed.

(** C7 at a file whose info names it "Notes". *)
Lemma C7_witness :
  exists w' calls,
    open_file_complete notes_file (Loaded hi_bytes) (Some notes_info)
      old_window
    = Done tt w' calls
    /\ In (Call_gtk_window_set_title (title w')) calls
    /\ title w'
       = match Some notes_info with
         | Some i =>
             g_file_info_get_attribute_string i "standard::display-name"
         | None => g_file_get_basename notes_file
         end.
Proof.
  apply (C7_display_name notes_file hi_bytes (Some notes_info) old_window).
  reflexivity.
Defined.

(** ** C8: one load after another *)

(** C8, as stated, fails: B, the one-byte file holding a nul byte, is
    valid UTF-8; loading A ("hi") and then B leaves the window showing
    A, where loading B alone leaves the window as it was. *)
Lemma C8_counterexample_nul_byte :
  utf8_decode nul_bytes = Some [0]
  /\ exists wAB callsAB wB callsB,
       (open_and_select notes_file (Loaded hi_bytes) None ;;
        open_and_select data_file (Loaded nul_bytes) None) old_window
       = Done tt wAB callsAB
       /\ open_and_select data_file (Loaded nul_bytes) None old_window
          = Done tt wB callsB
       /\ title wAB = Some "notes.txt"%string
       /\ title wB = Some "Text Viewer"%string
       /\ text (main_text_view wAB) = [104; 105]
       /\ text (main_text_view wB) = [104; 105; 10; 120].
Proof.
  split; [reflexivity|].
  eexists _, _, _, _.
  split; [vm_compute; reflexivity|].
  split; [vm_compute; reflexivity|].
  repeat split.
Qed.

(** C8, amended: for every pair of files A and B with B valid UTF-8
    holding no nul byte, when the load of A completes (in any way)
    before B is chosen and loaded, the window at the end (title, text,
    cursor position, label) is the one that loading B alone leaves: its
    title is B's display name and its cursor is at offset 0. *)
Theorem C8_second_load_overwrites
  fileA resultA infoA fileB bytesB charsB infoB w :
  utf8_decode bytesB = Some charsB ->
  no_nul bytesB = true ->
  exists wB callsAB callsB,
    (open_and_select fileA resultA infoA ;;
     open_and_select fileB (Loaded bytesB) infoB) w
    = Done tt wB callsAB
    /\ open_and_select fileB (Loaded bytesB) infoB w = Done tt wB callsB
    /\ title wB = display_name_of fileB infoB
    /\ cursor_position (main_text_view wB) = 0.
Proof.
  intros Hdec Hnul.
  assert (Hvalid : g_utf8_validate_len bytesB = true).
  { rewrite g_utf8_validate_len_spec, Hnul, Hdec. reflexivity. }
  destruct (open_file_complete_returns fileA resultA infoA w)
    as (wA & callsA & EA).
  destruct (load_success_run fileB bytesB infoB wA Hvalid)
    as (callsAB & EAB & _).
  destruct (load_success_run fileB bytesB infoB w Hvalid)
    as (callsB & EB & _).
  eexists _, _, _. split; [|split; [|split]].
  - erewrite bind_Done_Done; [reflexivity| |].
    + apply open_and_select_run, EA.
    + apply open_and_select_run, EAB.
  - apply open_and_select_run, EB.
  - reflexivity.
  - reflexivity.
Qed.

(** The amended C8 at a read of A that fails and the file "hi" as
    B. *)
Lemma C8_witness :
  exists wB callsAB callsB,
    (open_and_select data_file (Failed not_found) None ;;
     open_and_select notes_file (Loaded hi_bytes) None) old_window
    = Done tt wB callsAB
    /\ open_and_select notes_file (Loaded hi_bytes) None old_window
       = Done tt wB callsB
    /\ title wB = display_name_of notes_file None
    /\ cursor_position (main_text_view wB) = 0.
Proof.
  apply (C8_second_load_overwrites data_file (Failed not_found) None
           notes_file hi_bytes [104; 105] None old_window).
  - reflexivity.
  - reflexivity.
Defined.

(** ** C9: the validation is guarded *)

(** C9: [open_file_complete] returns on every outcome of the read, so
    its validation never reads through a NULL [contents]; the only
    validation it makes is of the buffer of a read that succeeded, over
    the buffer's length; and on a read error it makes no call that
    reads the contents. *)
Theorem C9_validation_guarded file result info w :
  exists w' calls,
    open_file_complete file result info w = Done tt w' calls
    /\ (forall str max_len,
          In (Call_g_utf8_validate str max_len) calls ->
          result = Loaded str /\ max_len = Z.of_nat (List.length str))
    /\ (forall err,
          result = Failed err ->
          existsb reads_contents calls = false).
Proof.
  destruct result as [bytes|err].
  - destruct (g_utf8_validate_len bytes) eqn:Hvalid.
    + destruct (load_success_run file bytes info w Hvalid) as (calls & E & V).
      eexists _, calls. split; [exact E|]. split; [|discriminate].
      intros str max_len Hin.
      apply In_visible in Hin; [|discriminate]. rewrite V in Hin.
      cbn in Hin. destruct Hin as [H|[H|[H|[H|[]]]]]; try discriminate H.
      injection H as <- <-. auto.
    + eexists _, _. split; [apply load_invalid_run, Hvalid|].
      split; [|discriminate].
      intros str max_len [H|[H|[]]]; try discriminate H.
      injection H as <- <-. auto.
  - eexists _, _. split; [apply load_failed_run|].
    split; [|reflexivity].
    intros str max_len [H|[]]. discriminate H.
Qed.

(** ** C10: the empty file *)

(** C10: for a file of zero bytes whose read succeeds, the empty byte
    sequence passes the validation and [open_file_complete] leaves the
    text empty, the cursor at offset 0 and the title set to the display
    name, and writes nothing to the standard error stream. *)
Theorem C10_empty_file file info w :
  g_utf8_validate_len [] = true
  /\ exists calls,
       open_file_complete file (Loaded []) info w
       = Done tt
           (mkWindow (display_name_of file info) (mkBuffer [] 0)
              "Ln 1, Col 1"%string)
           calls
       /\ stderr_of calls = [].
Proof.
  split; [reflexivity|].
  destruct (load_success_run file [] info w eq_refl) as (calls & E & V).
  exists calls. split; [exact E|].
  rewrite <- (stderr_of_visible calls), V. reflexivity.
Qed.

End Claims.

(** * More of the window: the callbacks under the main loop *)

Module LoopFacts.

Import Printf Utf8 TextLines Gio Gtk Toolkit Window.
Import Observe Samples MainLoop Utf8Facts TextLinesFacts WindowFacts.
Local Open Scope gtk_scope.

Lemma stderr_of_app c1 c2 :
  stderr_of (c1 ++ c2) = stderr_of c1 ++ stderr_of c2.
Proof.
  induction c1 as [|c c1 IH]; [reflexivity|].
  destruct c; cbn [stderr_of app]; now rewrite IH.
Qed.

Lemma loads_started_app c1 c2 :
  loads_started (c1 ++ c2) = loads_started c1 ++ loads_started c2.
Proof.
  induction c1 as [|c c1 IH]; [reflexivity|].
  destruct c; cbn [loads_started app]; now rewrite IH.
Qed.

Lemma loads_started_visible calls :
  loads_started (visible calls) = loads_started calls.
Proof.
  induction calls as [|c cs IH]; [reflexivity|].
  destruct c; cbn [visible loads_started]; now rewrite ?IH.
Qed.

Lemma filter_visible (p : Call -> bool) calls :
  (forall s, p (Call_gtk_label_set_text s) = false) ->
  filter p (visible calls) = filter p calls.
Proof.
  intros Hp. induction calls as [|c cs IH]; [reflexivity|].
  destruct c; cbn [visible filter]; rewrite ?IH, ?Hp; reflexivity.
Qed.

Lemma cursor_moved_run offset w :
  exists off,
    cursor_moved offset w
    = Done tt
        (mkWindow (title w) (mkBuffer (text (main_text_view w)) off)
           (cursor_label (mkBuffer (text (main_text_view w)) off)))
        [Call_gtk_label_set_text
           (cursor_label (mkBuffer (text (main_text_view w)) off))]
    /\ 0 <= off <= Z.of_nat (List.length (text (main_text_view w)))
    /\ (0 <= offset <= Z.of_nat (List.length (text (main_text_view w))) ->
        off = offset).
Proof.
  set (n := Z.of_nat (List.length (text (main_text_view w)))).
  exists (if (offset <? 0) || (n <? offset) then n else offset).
  split; [|split].
  - unfold cursor_moved.
    rewrite (bind_Done _ _ w w w []) by reflexivity.
    erewrite bind_Done_Done; [|apply set_buffer_run|apply notify_run].
    unfold gtk_text_buffer_get_iter_at_offset. fold n.
    destruct (locate _ _ _). reflexivity.
  - destruct (Z.ltb_spec offset 0); destruct (Z.ltb_spec n offset);
      cbn [orb]; subst n; lia.
  - intros H. destruct (Z.ltb_spec offset 0); destruct (Z.ltb_spec n offset);
      cbn [orb]; subst n; lia.
Qed.

(** What one event does. *)
Record Step (e : Event) (w w' : TextViewerWindow) (calls : list Call)
  : Prop := mkStep {
  step_stderr :
    stderr_of calls = [] /\ fails_to_load e = false
    \/ (exists line, stderr_of calls = [line]) /\ fails_to_load e = true;
  step_loads : loads_started calls = chosen_files [e];
  step_dialogs :
    filter opens_dialog calls = if is_activate_open e then [Call_gtk_file_dialog_open] else [];
  step_frame :
    displays e = false ->
    title w' = title w /\ text (main_text_view w') = text (main_text_view w);
  step_bounds : cursor_in_bounds w -> cursor_in_bounds w';
  step_sync : label_in_sync w -> label_in_sync w'
}.

Lemma dispatch_step e w :
  exists w' calls, dispatch e w = Done tt w' calls /\ Step e w w' calls.
Proof.
  destruct e as [|chosen|file result info|offset].
  - exists w, [Call_gtk_file_dialog_open]. split; [reflexivity|].
    split; cbn; auto.
  - destruct chosen as [file|].
    + exists w, [Call_g_file_load_contents_async file].
      split; [reflexivity|]. split; cbn; auto.
    + exists w, []. split; [reflexivity|]. split; cbn; auto.
  - destruct result as [bytes|err].
    + destruct (g_utf8_validate_len bytes) eqn:Hvalid.
      * destruct (load_success_run file bytes info w Hvalid) as (calls & E & V).
        eexists _, calls. split; [exact E|].
        split; cbn [fails_to_load displays chosen_files is_activate_open].
        -- left. rewrite Hvalid. split; [|reflexivity].
           rewrite <- stderr_of_visible, V. reflexivity.
        -- rewrite <- loads_started_visible, V. reflexivity.
        -- rewrite <- (filter_visible opens_dialog) by reflexivity.
           rewrite V. reflexivity.
        -- rewrite Hvalid. discriminate.
        -- intros _. unfold cursor_in_bounds.
           cbn [main_text_view cursor_position text]. lia.
        -- intros _. unfold label_in_sync.
           cbn [main_text_view cursor_pos]. now rewrite cursor_label_start.
      * eexists _, _. split; [apply load_invalid_run, Hvalid|].
        split; cbn [fails_to_load displays chosen_files is_activate_open];
          rewrite ?Hvalid; cbn; eauto.
    + eexists _, _. split; [apply load_failed_run|].
      split; cbn; eauto.
  - destruct (cursor_moved_run offset w) as (off & E & Hoff & _).
    eexists _, _. split; [exact E|].
    split; cbn [fails_to_load displays chosen_files is_activate_open
                stderr_of loads_started filter opens_dialog];
      try (intros _); auto; try exact Hoff; reflexivity.
Qed.

Lemma run_cons e events w w1 c1 w2 c2 :
  dispatch e w = Done tt w1 c1 ->
  run events w1 = Done tt w2 c2 ->
  run (e :: events) w = Done tt w2 (c1 ++ c2).
Proof. intros H1 H2. cbn [run]. now apply bind_Done_Done with (a := tt) (w1 := w1). Qed.

(** The main loop never stops on a fault. *)
Lemma run_returns events :
  forall w, exists w' calls, run events w = Done tt w' calls.
Proof.
  induction events as [|e events IH]; intros w.
  - exists w, []. reflexivity.
  - destruct (dispatch_step e w) as (w1 & c1 & E1 & _).
    destruct (IH w1) as (w2 & c2 & E2).
    exists w2, (c1 ++ c2). now apply run_cons with (w1 := w1).
Qed.

Lemma run_inv events :
  forall w w' calls,
    run events w = Done tt w' calls ->
    match events with
    | [] => w' = w /\ calls = []
    | e :: events' =>
        exists w1 c1 c2,
          dispatch e w = Done tt w1 c1 /\ Step e w w1 c1
          /\ run events' w1 = Done tt w' c2 /\ calls = c1 ++ c2
    end.
Proof.
  destruct events as [|e events']; intros w w' calls H.
  - cbn in H. injection H as <- <-. auto.
  - destruct (dispatch_step e w) as (w1 & c1 & E1 & S1).
    destruct (run_returns events' w1) as (w2 & c2 & E2).
    rewrite (run_cons _ _ _ _ _ _ _ E1 E2) in H. injection H as <- <-.
    exists w1, c1, c2. auto.
Qed.

Lemma run_app events1 events2 w w1 c1 w2 c2 :
  run events1 w = Done tt w1 c1 ->
  run events2 w1 = Done tt w2 c2 ->
  run (events1 ++ events2) w = Done tt w2 (c1 ++ c2).
Proof.
  revert w c1. induction events1 as [|e events1 IH]; intros w c1 H1 H2.
  - cbn in H1. injection H1 as <- <-. exact H2.
  - apply run_inv in H1. destruct H1 as (wa & ca & cb & Ea & _ & Eb & ->).
    cbn [app]. rewrite <- app_assoc.
    apply run_cons with (w1 := wa); [exact Ea|].
    now apply IH.
Qed.

(** What a sequence of events does, read off what each event does. *)
Lemma run_steps events :
  forall w,
  exists w' calls,
    run events w = Done tt w' calls
    /\ List.length (stderr_of calls)
       = List.length (filter fails_to_load events)
    /\ loads_started calls = chosen_files events
    /\ List.length (filter opens_dialog calls)
       = List.length (filter is_activate_open events)
    /\ (forallb (fun e => negb (displays e)) events = true ->
        title w' = title w
        /\ text (main_text_view w') = text (main_text_view w))
    /\ (cursor_in_bounds w -> cursor_in_bounds w')
    /\ (label_in_sync w -> label_in_sync w').
Proof.
  induction events as [|e events IH]; intros w.
  - exists w, []. cbn. auto 10.
  - destruct (dispatch_step e w) as (w1 & c1 & E1 & S1).
    destruct (IH w1) as (w2 & c2 & E2 & Herr & Hloads & Hdlg & Hframe & Hb & Hs).
    exists w2, (c1 ++ c2). split; [now apply run_cons with (w1 := w1)|].
    destruct S1 as [Serr Sloads Sdlg Sframe Sb Ss].
    split; [|split; [|split; [|split; [|split]]]].
    + rewrite stderr_of_app, length_app, Herr. cbn [filter].
      destruct Serr as [[-> ->]|[[line ->] ->]]; reflexivity.
    + rewrite loads_started_app, Sloads, Hloads.
      destruct e as [|[file|]| |]; reflexivity.
    + rewrite filter_app, length_app, Sdlg, Hdlg. cbn [filter].
      destruct (is_activate_open e); reflexivity.
    + intros H. cbn [forallb] in H. apply andb_true_iff in H.
      destruct H as [He Hes]. apply negb_true_iff in He.
      destruct (Sframe He) as [T1 X1]. destruct (Hframe Hes) as [T2 X2].
      split; congruence.
    + auto.
    + auto.
Qed.

Lemma utf8_decode_length bs :
  forall cs, utf8_decode bs = Some cs ->
             (List.length cs <= List.length bs)%nat.
Proof.
  induction bs as [bs IH] using list_length_ind.
  destruct bs as [|b1 r1]; intros cs.
  { cbn. intros [= <-]. cbn. lia. }
  cbn [utf8_decode].
  destruct (byte_val b1 <? 128).
  { intros H. apply option_map_Some in H. destruct H as (cs' & H & ->).
    apply IH in H; cbn [List.length] in *; lia. }
  destruct (in_range 194 223 (byte_val b1)).
  { destruct r1 as [|b2 r2]; [discriminate|].
    destruct (is_cont (byte_val b2)); [|discriminate].
    intros H. apply option_map_Some in H. destruct H as (cs' & H & ->).
    apply IH in H; cbn [List.length] in *; lia. }
  destruct (in_range 224 239 (byte_val b1)).
  { destruct r1 as [|b2 [|b3 r3]]; try discriminate.
    destruct (second_of_3 _ _ && is_cont _); [|discriminate].
    intros H. apply option_map_Some in H. destruct H as (cs' & H & ->).
    apply IH in H; cbn [List.length] in *; lia. }
  destruct (in_range 240 244 (byte_val b1)); [|discriminate].
  destruct r1 as [|b2 [|b3 [|b4 r4]]]; try discriminate.
  destruct (second_of_4 _ _ && is_cont _ && is_cont _); [|discriminate].
  intros H. apply option_map_Some in H. destruct H as (cs' & H & ->).
  apply IH in H; cbn [List.length] in *; lia.
Qed.

(** One character further: the next line when the character passed
    ends its line, the next column when it does not. *)
Lemma line_col_next txt :
  forall off ln col c rest,
    skipn off txt = c :: rest ->
    line_col txt (S off) ln col
    = if ends_line c rest
      then (fst (line_col txt off ln col) + 1, 0)
      else (fst (line_col txt off ln col), snd (line_col txt off ln col) + 1).
Proof.
  induction txt as [|d txt IH]; intros off ln col c rest H.
  - destruct off; discriminate H.
  - destruct off as [|k].
    + cbn [skipn] in H. injection H as -> ->.
      cbn [line_col]. destruct (ends_line c rest).
      * destruct rest; reflexivity.
      * destruct rest; reflexivity.
    + cbn [skipn] in H.
      change (line_col (d :: txt) (S (S k)) ln col)
        with (if ends_line d txt then line_col txt (S k) (ln + 1) 0
              else line_col txt (S k) ln (col + 1)).
      change (line_col (d :: txt) (S k) ln col)
        with (if ends_line d txt then line_col txt k (ln + 1) 0
              else line_col txt k ln (col + 1)).
      destruct (ends_line d txt); now apply IH.
Qed.

Lemma line_col_sum txt :
  forall off ln col,
    0 <= col ->
    fst (line_col txt off ln col) + snd (line_col txt off ln col)
    <= ln + col + Z.of_nat off.
Proof.
  induction txt as [|c rest IH]; intros off ln col Hcol.
  - destruct off; cbn [line_col fst snd]; lia.
  - destruct off as [|k]; cbn [line_col]; [cbn [fst snd]; lia|].
    destruct (ends_line c rest).
    + specialize (IH k (ln + 1) 0). lia.
    + specialize (IH k ln (col + 1)). lia.
Qed.

(** An event that makes the buffer notify leaves the label in step
    with the buffer, whatever the window was. *)
Lemma dispatch_notifies e w :
  notifies e = true ->
  exists w1 c1,
    dispatch e w = Done tt w1 c1 /\ cursor_in_bounds w1 /\ label_in_sync w1.
Proof.
  intros Hn. destruct e as [|chosen|file result info|offset];
    try discriminate Hn.
  - destruct result as [bytes|err]; [|discriminate Hn].
    cbn [notifies displays] in Hn.
    destruct (load_success_run file bytes info w Hn) as (calls & E & _).
    eexists _, calls. split; [exact E|]. split.
    + unfold cursor_in_bounds. cbn [main_text_view cursor_position text]. lia.
    + unfold label_in_sync. cbn [main_text_view cursor_pos].
      now rewrite cursor_label_start.
  - destruct (cursor_moved_run offset w) as (off & E & Hoff & _).
    eexists _, _. split; [exact E|]. split; [exact Hoff|reflexivity].
Qed.

Lemma skipn_cons_lt {A} (l : list A) :
  forall n x rest, skipn n l = x :: rest -> (n < List.length l)%nat.
Proof.
  induction l as [|y l IH]; intros n x rest H.
  - destruct n; discriminate H.
  - destruct n as [|n]; cbn [List.length]; [lia|].
    cbn [skipn] in H. apply IH in H. lia.
Qed.

Lemma last_char_append s t :
  last_char (s ++ t)%string
  = match last_char t with
    | Some c => Some c
    | None => last_char s
    end.
Proof.
  induction s as [|a s IH]; cbn [append last_char].
  - now destruct (last_char t).
  - rewrite IH. now destruct (last_char t).
Qed.

Lemma dispatch_lines e w :
  exists w1 c1,
    dispatch e w = Done tt w1 c1
    /\ forallb diagnostic_line (stderr_of c1) = true.
Proof.
  destruct e as [|chosen|file result info|offset].
  - exists w, [Call_gtk_file_dialog_open]. split; reflexivity.
  - destruct chosen as [file|]; eexists _, _; split; reflexivity.
  - destruct result as [bytes|err].
    + destruct (g_utf8_validate_len bytes) eqn:Hvalid.
      * destruct (load_success_run file bytes info w Hvalid) as (calls & E & V).
        eexists _, calls. split; [exact E|].
        rewrite <- stderr_of_visible, V. reflexivity.
      * eexists _, _. split; [apply load_invalid_run, Hvalid|].
        cbn [stderr_of forallb]. unfold diagnostic_line.
        rewrite !last_char_append. reflexivity.
    + eexists _, _. split; [apply load_failed_run|].
      cbn [stderr_of forallb]. unfold diagnostic_line.
      rewrite !last_char_append. reflexivity.
  - destruct (cursor_moved_run offset w) as (off & E & _).
    eexists _, _. split; [exact E|]. reflexivity.
Qed.

End LoopFacts.

(** ** The standard error stream, line by line *)

Module StreamFacts.

Import Printf Utf8 TextLines Gio Gtk Toolkit Window.
Import Observe Samples MainLoop.
Import Utf8Facts TextLinesFacts WindowFacts LoopFacts.
Local Open Scope gtk_scope.

Lemma string_app_assoc (a b c : string) :
  ((a ++ b) ++ c = a ++ (b ++ c))%string.
Proof.
  induction a as [|x a IH]; cbn [append]; [reflexivity|]. now rewrite IH.
Qed.

Lemma string_app_nil_r (a : string) : (a ++ "" = a)%string.
Proof.
  induction a as [|x a IH]; cbn [append]; [reflexivity|]. now rewrite IH.
Qed.

Lemma concat_cons (x : string) xs :
  String.concat "" (x :: xs) = (x ++ String.concat "" xs)%string.
Proof.
  destruct xs as [|y ys]; cbn [String.concat append].
  - now rewrite string_app_nil_r.
  - reflexivity.
Qed.

Lemma has_lf_append a b : has_lf (a ++ b) = has_lf a || has_lf b.
Proof.
  induction a as [|x a IH]; cbn [append has_lf]; [reflexivity|].
  rewrite IH. now rewrite orb_assoc.
Qed.

Lemma line_feeds_append a b :
  line_feeds (a ++ b) = (line_feeds a + line_feeds b)%nat.
Proof.
  induction a as [|x a IH]; cbn [append line_feeds]; [reflexivity|].
  rewrite IH. now destruct (Ascii.eqb x "010").
Qed.

Lemma line_feeds_plain s : has_lf s = false -> line_feeds s = O.
Proof.
  induction s as [|x s IH]; cbn [has_lf line_feeds]; [reflexivity|].
  intros H. apply orb_false_iff in H. destruct H as [-> H]. auto.
Qed.

(** The stream of plain lines has as many line feeds as lines. *)
Lemma line_feeds_terminated lines :
  forallb plain_diagnostic lines = true ->
  line_feeds (terminated lines) = List.length lines.
Proof.
  unfold terminated. induction lines as [|l lines IH]; [reflexivity|].
  cbn [forallb map List.length]. intros H.
  apply andb_true_iff in H. destruct H as [Hl Hls].
  unfold plain_diagnostic in Hl. apply andb_true_iff in Hl.
  destruct Hl as [_ Hl]. apply negb_true_iff in Hl.
  rewrite concat_cons, !line_feeds_append, (line_feeds_plain l Hl), IH
    by exact Hls.
  reflexivity.
Qed.

Ltac plain_line :=
  unfold plain_diagnostic; apply andb_true_iff; split;
  [reflexivity
  |apply negb_true_iff; rewrite !has_lf_append;
   repeat match goal with
     | H : has_lf _ = false |- _ => rewrite H
     end;
   reflexivity].

(** What one event writes when the names it prints are plain. *)
Lemma dispatch_plain e w :
  plain_names e = true ->
  exists w1 c1 lines,
    dispatch e w = Done tt w1 c1
    /\ stderr_of c1 = map (fun l => (l ++ LF)%string) lines
    /\ forallb plain_diagnostic lines = true
    /\ List.length lines = List.length (filter fails_to_load [e]).
Proof.
  intros Hp. destruct e as [|chosen|file result info|offset].
  - exists w, [Call_gtk_file_dialog_open], []. repeat split.
  - destruct chosen as [file|]; eexists w, _, []; repeat split.
  - destruct result as [bytes|err]; cbn [plain_names] in Hp.
    + destruct (g_utf8_validate_len bytes) eqn:Hvalid.
      * destruct (load_success_run file bytes info w Hvalid) as (calls & E & V).
        eexists _, calls, []. split; [exact E|].
        cbn [filter fails_to_load]. rewrite Hvalid.
        split; [|split; reflexivity].
        rewrite <- stderr_of_visible, V. reflexivity.
      * cbn [orb] in Hp. apply negb_true_iff in Hp.
        eexists _, _,
          [("Unable to load the contents of " ++ ldquo
            ++ fmt_s (g_file_peek_path file) ++ rdquo ++ ": "
            ++ "the file is not encoded with UTF-8")%string].
        split; [apply load_invalid_run, Hvalid|].
        cbn [filter fails_to_load stderr_of map forallb]. rewrite Hvalid.
        split; [|split; [|reflexivity]].
        -- now rewrite !string_app_assoc.
        -- rewrite andb_true_r. plain_line.
    + apply andb_true_iff in Hp. destruct Hp as [Hpath Hmsg].
      apply negb_true_iff in Hpath. apply negb_true_iff in Hmsg.
      eexists _, _,
        [("Unable to open " ++ ldquo ++ fmt_s (g_file_peek_path file)
          ++ rdquo ++ ": " ++ message err)%string].
      split; [apply load_failed_run|].
      cbn [filter fails_to_load stderr_of map forallb].
      split; [|split; [|reflexivity]].
      * now rewrite !string_app_assoc.
      * rewrite andb_true_r. plain_line.
  - destruct (cursor_moved_run offset w) as (off & E & _).
    eexists _, _, []. split; [exact E|]. repeat split.
Qed.

(** What a sequence of events writes when the names printed are
    plain: one line for each read that fails to load. *)
Lemma run_plain events :
  forall w,
    forallb plain_names events = true ->
    exists w' calls lines,
      run events w = Done tt w' calls
      /\ stderr_of calls = map (fun l => (l ++ LF)%string) lines
      /\ forallb plain_diagnostic lines = true
      /\ List.length lines = List.length (filter fails_to_load events).
Proof.
  induction events as [|e events IH]; intros w Hp.
  - exists w, [], []. repeat split.
  - cbn [forallb] in Hp. apply andb_true_iff in Hp. destruct Hp as [He Hes].
    destruct (dispatch_plain e w He) as (w1 & c1 & l1 & E1 & S1 & P1 & N1).
    destruct (IH w1 Hes) as (w2 & c2 & l2 & E2 & S2 & P2 & N2).
    exists w2, (c1 ++ c2), (l1 ++ l2).
    split; [now apply run_cons with (w1 := w1)|].
    split; [now rewrite stderr_of_app, map_app, S1, S2|].
    split; [now rewrite forallb_app, P1, P2|].
    rewrite length_app, N1, N2. cbn [filter].
    destruct (fails_to_load e); reflexivity.
Qed.

(** Every message written starts with "Unable to " and ends with a
    line feed. *)
Lemma run_lines events :
  forall w,
  exists w' calls,
    run events w = Done tt w' calls
    /\ forallb diagnostic_line (stderr_of calls) = true.
Proof.
  induction events as [|e events IH]; intros w.
  - exists w, []. split; reflexivity.
  - destruct (dispatch_lines e w) as (w1 & c1 & E1 & H1).
    destruct (IH w1) as (w2 & c2 & E2 & H2).
    exists w2, (c1 ++ c2). split; [now apply run_cons with (w1 := w1)|].
    rewrite stderr_of_app, forallb_app, H1, H2. reflexivity.
Qed.

End StreamFacts.

(** * Further properties *)

Module Extras.

Import Printf Utf8 TextLines Gio Gtk Toolkit Window.
Import Observe Samples MainLoop.
Import Utf8Facts TextLinesFacts WindowFacts LoopFacts StreamFacts.
Local Open Scope gtk_scope.

(** X1: a load that passes the validation leaves the same window
    whatever the window was before, with the cursor at offset 0 and the
    label reading "Ln 1, Col 1" (the handler runs when the cursor is
    placed). *)
Theorem X1_load_resets_window file bytes info w1 w2 :
  g_utf8_validate_len bytes = true ->
  exists w' calls1 calls2,
    open_file_complete file (Loaded bytes) info w1 = Done tt w' calls1
    /\ open_file_complete file (Loaded bytes) info w2 = Done tt w' calls2
    /\ cursor_position (main_text_view w') = 0
    /\ cursor_pos w' = "Ln 1, Col 1"%string.
Proof.
  intros Hvalid.
  destruct (load_success_run file bytes info w1 Hvalid) as (c1 & E1 & _).
  destruct (load_success_run file bytes info w2 Hvalid) as (c2 & E2 & _).
  eexists _, c1, c2. split; [exact E1|]. split; [exact E2|].
  split; reflexivity.
Qed.

(** X1 at the file "hi", from the sample window and from an empty
    one. *)
Lemma X1_witness :
  exists w' calls1 calls2,
    open_file_complete notes_file (Loaded hi_bytes) None old_window
    = Done tt w' calls1
    /\ open_file_complete notes_file (Loaded hi_bytes) None
         (mkWindow None (mkBuffer [] 0) "")
       = Done tt w' calls2
    /\ cursor_position (main_text_view w') = 0
    /\ cursor_pos w' = "Ln 1, Col 1"%string.
Proof.
  apply (X1_load_resets_window notes_file hi_bytes None old_window
           (mkWindow None (mkBuffer [] 0) "")).
  reflexivity.
Defined.

(** X2: what [open_file_complete] does is decided by the read.  When
    the read succeeded with bytes that decode as UTF-8 and hold no nul
    byte, it sets the text from those bytes and the title to the
    display name, and hands nothing to [g_printerr]; in every other case
    it sets neither, leaves the window as it was, and hands exactly one
    message to [g_printerr]. *)
Theorem X2_displayed_iff_valid file result info w :
  exists w' calls,
    open_file_complete file result info w = Done tt w' calls
    /\ if accepted result
       then existsb sets_text calls = true
            /\ existsb sets_title calls = true
            /\ title w' = display_name_of file info
            /\ stderr_of calls = []
            /\ exists bytes,
                 result = Loaded bytes
                 /\ In (Call_gtk_text_buffer_set_text bytes
                          (CInt.to_int (Z.of_nat (List.length bytes))))
                      calls
       else existsb sets_text calls = false
            /\ existsb sets_title calls = false
            /\ w' = w
            /\ exists message, stderr_of calls = [message].
Proof.
  destruct result as [bytes|err]; cbn [accepted].
  - rewrite <- g_utf8_validate_len_spec.
    destruct (g_utf8_validate_len bytes) eqn:Hvalid.
    + destruct (load_success_run file bytes info w Hvalid) as (calls & E & V).
      eexists _, calls. split; [exact E|].
      rewrite <- (existsb_visible sets_text), <- (existsb_visible sets_title)
        by reflexivity.
      rewrite <- stderr_of_visible, V. cbn [title].
      split; [reflexivity|]. split; [reflexivity|].
      split; [reflexivity|]. split; [reflexivity|].
      exists bytes. split; [reflexivity|].
      apply visible_In. rewrite V. cbn. auto.
    + eexists _, _. split; [apply load_invalid_run, Hvalid|].
      cbn [existsb sets_text sets_title orb stderr_of].
      split; [reflexivity|]. split; [reflexivity|]. split; [reflexivity|].
      eexists. reflexivity.
  - eexists _, _. split; [apply load_failed_run|].
    cbn [existsb sets_text sets_title orb stderr_of].
    split; [reflexivity|]. split; [reflexivity|]. split; [reflexivity|].
    eexists. reflexivity.
Qed.

(** X3: the title and the text change only when a read that passes the
    validation completes: after any sequence of events with no such
    completion (actions, dialog answers, failed or rejected reads,
    moves of the cursor) they are as before. *)
Theorem X3_only_loads_change_text events w :
  forallb (fun e => negb (displays e)) events = true ->
  exists w' calls,
    run events w = Done tt w' calls
    /\ title w' = title w
    /\ text (main_text_view w') = text (main_text_view w).
Proof.
  intros H.
  destruct (run_steps events w) as (w' & calls & E & _ & _ & _ & Hf & _).
  exists w', calls. split; [exact E|]. exact (Hf H).
Qed.

Lemma X3_witness :
  exists w' calls,
    run [ActivateOpen; DialogAnswered (Some notes_file);
         ReadCompleted notes_file (Failed not_found) None;
         CursorMoved 1; ReadCompleted data_file (Loaded nul_bytes) None]
      old_window
    = Done tt w' calls
    /\ title w' = title old_window
    /\ text (main_text_view w') = text (main_text_view old_window).
Proof.
  apply (X3_only_loads_change_text
           [ActivateOpen; DialogAnswered (Some notes_file);
            ReadCompleted notes_file (Failed not_found) None;
            CursorMoved 1; ReadCompleted data_file (Loaded nul_bytes) None]
           old_window).
  reflexivity.
Defined.

(** X4: the last read that passes the validation wins: whatever events
    came before it, and whatever events with no such completion come
    after it, the title and the text at the end are those that its
    completion alone leaves, from any window. *)
Theorem X4_last_load_wins before file bytes info after w w0 :
  g_utf8_validate_len bytes = true ->
  forallb (fun e => negb (displays e)) after = true ->
  exists w' calls wB callsB,
    run (before ++ ReadCompleted file (Loaded bytes) info :: after) w
    = Done tt w' calls
    /\ open_file_complete file (Loaded bytes) info w0 = Done tt wB callsB
    /\ title w' = title wB
    /\ text (main_text_view w') = text (main_text_view wB).
Proof.
  intros Hvalid Hafter.
  destruct (run_returns before w) as (w1 & c1 & E1).
  destruct (load_success_run file bytes info w1 Hvalid) as (c2 & E2 & _).
  destruct (load_success_run file bytes info w0 Hvalid) as (cB & EB & _).
  destruct (run_steps after
              (mkWindow (display_name_of file info)
                 (mkBuffer
                    (text_set bytes
                       (CInt.to_int (Z.of_nat (List.length bytes)))) 0)
                 "Ln 1, Col 1"%string))
    as (w3 & c3 & E3 & _ & _ & _ & Hf & _).
  destruct (Hf Hafter) as [T X].
  eexists w3, _, _, cB. split; [|split; [exact EB|split; [exact T|exact X]]].
  eapply run_app; [exact E1|].
  eapply run_cons; [exact E2|exact E3].
Qed.

Lemma X4_witness :
  exists w' calls wB callsB,
    run ([ReadCompleted data_file (Loaded hi_bytes) None; CursorMoved 2]
         ++ ReadCompleted notes_file (Loaded hi_bytes) (Some notes_info)
         :: [CursorMoved 1; ReadCompleted data_file (Failed not_found) None])
      old_window
    = Done tt w' calls
    /\ open_file_complete notes_file (Loaded hi_bytes) (Some notes_info)
         (mkWindow None (mkBuffer [] 0) "")
       = Done tt wB callsB
    /\ title w' = title wB
    /\ text (main_text_view w') = text (main_text_view wB).
Proof.
  apply (X4_last_load_wins
           [ReadCompleted data_file (Loaded hi_bytes) None; CursorMoved 2]
           notes_file hi_bytes (Some notes_info)
           [CursorMoved 1; ReadCompleted data_file (Failed not_found) None]
           old_window (mkWindow None (mkBuffer [] 0) "")).
  - reflexivity.
  - reflexivity.
Defined.

(** X5: the callbacks keep the label in step with the buffer: from a
    window whose cursor is in the document and whose label is what the
    handler computes for it, every sequence of events runs to its end
    (no fault) and leaves such a window. *)
Theorem X5_label_stays_in_sync events w :
  cursor_in_bounds w ->
  label_in_sync w ->
  exists w' calls,
    run events w = Done tt w' calls
    /\ cursor_in_bounds w'
    /\ label_in_sync w'.
Proof.
  intros Hb Hs.
  destruct (run_steps events w) as (w' & calls & E & _ & _ & _ & _ & Hb' & Hs').
  exists w', calls. auto.
Qed.

Lemma X5_witness :
  exists w' calls,
    run [CursorMoved 0; ActivateOpen; DialogAnswered (Some notes_file);
         ReadCompleted notes_file (Loaded hi_bytes) None; CursorMoved 7]
      old_window
    = Done tt w' calls
    /\ cursor_in_bounds w'
    /\ label_in_sync w'.
Proof.
  apply (X5_label_stays_in_sync
           [CursorMoved 0; ActivateOpen; DialogAnswered (Some notes_file);
            ReadCompleted notes_file (Loaded hi_bytes) None; CursorMoved 7]
           old_window).
  - unfold cursor_in_bounds. cbn. lia.
  - reflexivity.
Defined.

(** X6: once the buffer has notified, the label is in step with it,
    whatever the window showed at first: after any sequence of events
    holding a move of the cursor or a read that passes the validation,
    the cursor is in the document and the label is what the handler
    computes for the buffer. *)
Theorem X6_label_in_sync_once_notified before e after w :
  notifies e = true ->
  exists w' calls,
    run (before ++ e :: after) w = Done tt w' calls
    /\ cursor_in_bounds w'
    /\ label_in_sync w'.
Proof.
  intros Hn.
  destruct (run_returns before w) as (w1 & c1 & E1).
  destruct (dispatch_notifies e w1 Hn) as (w2 & c2 & E2 & Hb & Hs).
  destruct (run_steps after w2)
    as (w3 & c3 & E3 & _ & _ & _ & _ & Hb' & Hs').
  eexists w3, _. split; [|auto].
  eapply run_app; [exact E1|]. eapply run_cons; [exact E2|exact E3].
Qed.

Lemma X6_witness :
  exists w' calls,
    run ([ActivateOpen] ++ CursorMoved 2
         :: [ReadCompleted data_file (Failed not_found) None])
      (mkWindow None (mkBuffer [104; 105] 0) "")
    = Done tt w' calls
    /\ cursor_in_bounds w'
    /\ label_in_sync w'.
Proof.
  apply (X6_label_in_sync_once_notified [ActivateOpen] (CursorMoved 2)
           [ReadCompleted data_file (Failed not_found) None]
           (mkWindow None (mkBuffer [104; 105] 0) "")).
  reflexivity.
Defined.

(** X7: after the load of a file that is valid UTF-8 with no nul byte
    and shorter than [INT_MAX] bytes, a move of the cursor to any offset
    of the document leaves the label reading the 1-based line and column
    of that offset in the decoded file. *)
Theorem X7_label_after_load file bytes chars info offset w :
  utf8_decode bytes = Some chars ->
  no_nul bytes = true ->
  Z.of_nat (List.length bytes) < CInt.INT_MAX ->
  0 <= offset <= Z.of_nat (List.length chars) ->
  exists w' calls,
    run [ReadCompleted file (Loaded bytes) info; CursorMoved offset] w
    = Done tt w' calls
    /\ text (main_text_view w') = chars
    /\ cursor_position (main_text_view w') = offset
    /\ cursor_pos w'
       = ("Ln " ++ fmt_d (line_of chars (Z.to_nat offset) + 1)
          ++ ", Col " ++ fmt_d (column_of chars (Z.to_nat offset) + 1)
         )%string.
Proof.
  intros Hdec Hnul Hlen Hoff.
  assert (Hvalid : g_utf8_validate_len bytes = true).
  { rewrite g_utf8_validate_len_spec, Hnul, Hdec. reflexivity. }
  destruct (load_success_run file bytes info w Hvalid) as (c1 & E1 & _).
  rewrite (text_set_valid bytes chars Hvalid Hdec) in E1 by lia.
  set (w1 := mkWindow (display_name_of file info) (mkBuffer chars 0)
               "Ln 1, Col 1"%string) in *.
  destruct (cursor_moved_run offset w1) as (off & E2 & _ & Heq).
  cbn [w1 main_text_view text title] in E2, Heq.
  rewrite (Heq Hoff) in E2.
  eexists _, _. split.
  - eapply run_cons; [exact E1|].
    eapply run_cons; [exact E2|reflexivity].
  - cbn [main_text_view text cursor_position cursor_pos].
    split; [reflexivity|]. split; [reflexivity|].
    apply cursor_label_spec; [exact Hoff|].
    pose proof (utf8_decode_length bytes chars Hdec). lia.
Qed.

Lemma X7_witness :
  exists w' calls,
    run [ReadCompleted notes_file (Loaded hi_bytes) None; CursorMoved 1]
      old_window
    = Done tt w' calls
    /\ text (main_text_view w') = [104; 105]
    /\ cursor_position (main_text_view w') = 1
    /\ cursor_pos w'
       = ("Ln " ++ fmt_d (line_of [104; 105] (Z.to_nat 1) + 1)
          ++ ", Col " ++ fmt_d (column_of [104; 105] (Z.to_nat 1) + 1)
         )%string.
Proof.
  apply (X7_label_after_load notes_file hi_bytes [104; 105] None 1
           old_window).
  - reflexivity.
  - reflexivity.
  - cbn. unfold CInt.INT_MAX. lia.
  - cbn. lia.
Defined.

(** X8: in a document of fewer than [INT_MAX] characters, when the
    cursor moves one character to the right the label goes from
    "Ln l, Col c" to "Ln l, Col c+1", or, when the character passed ends
    its line, to "Ln l+1, Col 1"; l and c are at least 1. *)
Theorem X8_cursor_one_right t txt l c ch rest :
  0 <= c ->
  skipn (Z.to_nat c) txt = ch :: rest ->
  Z.of_nat (List.length txt) < CInt.INT_MAX ->
  exists ln col,
    1 <= ln /\ 1 <= col
    /\ text_view_window__update_cursor_postion
         (mkWindow t (mkBuffer txt c) l)
       = Done tt
           (mkWindow t (mkBuffer txt c) (g_strdup_printf_Ln_Col ln col))
           [Call_gtk_label_set_text (g_strdup_printf_Ln_Col ln col)]
    /\ text_view_window__update_cursor_postion
         (mkWindow t (mkBuffer txt (c + 1)) l)
       = Done tt
           (mkWindow t (mkBuffer txt (c + 1))
              (if ends_line ch rest
               then g_strdup_printf_Ln_Col (ln + 1) 1
               else g_strdup_printf_Ln_Col ln (col + 1)))
           [Call_gtk_label_set_text
              (if ends_line ch rest
               then g_strdup_printf_Ln_Col (ln + 1) 1
               else g_strdup_printf_Ln_Col ln (col + 1))].
Proof.
  intros Hc Hskip Hlen.
  pose proof (skipn_cons_lt txt _ _ _ Hskip) as Hlt.
  pose proof (line_of_bounds txt (Z.to_nat c)) as Hl.
  pose proof (column_of_bounds txt (Z.to_nat c)) as Hcol.
  exists (line_of txt (Z.to_nat c) + 1), (column_of txt (Z.to_nat c) + 1).
  split; [lia|]. split; [lia|].
  rewrite !update_cursor_run. cbn [title main_text_view].
  rewrite (cursor_label_spec txt c) by lia.
  rewrite (cursor_label_spec txt (c + 1)) by lia.
  replace (Z.to_nat (c + 1)) with (S (Z.to_nat c)) by lia.
  unfold line_of, column_of.
  rewrite (line_col_next txt _ 0 0 ch rest Hskip).
  split; [reflexivity|].
  destruct (ends_line ch rest); reflexivity.
Qed.

Lemma X8_witness :
  exists ln col,
    1 <= ln /\ 1 <= col
    /\ text_view_window__update_cursor_postion
         (mkWindow None (mkBuffer [104; 105; 10; 120] 2) "")
       = Done tt
           (mkWindow None (mkBuffer [104; 105; 10; 120] 2)
              (g_strdup_printf_Ln_Col ln col))
           [Call_gtk_label_set_text (g_strdup_printf_Ln_Col ln col)]
    /\ text_view_window__update_cursor_postion
         (mkWindow None (mkBuffer [104; 105; 10; 120] (2 + 1)) "")
       = Done tt
           (mkWindow None (mkBuffer [104; 105; 10; 120] (2 + 1))
              (if ends_line 10 [120]
               then g_strdup_printf_Ln_Col (ln + 1) 1
               else g_strdup_printf_Ln_Col ln (col + 1)))
           [Call_gtk_label_set_text
              (if ends_line 10 [120]
               then g_strdup_printf_Ln_Col (ln + 1) 1
               else g_strdup_printf_Ln_Col ln (col + 1))].
Proof.
  apply (X8_cursor_one_right None [104; 105; 10; 120] "" 2 10 [120]).
  - lia.
  - reflexivity.
  - cbn. unfold CInt.INT_MAX. lia.
Defined.

(** X9: a read is started for every file a dialog answers with, in the
    order of the answers, and by nothing else; a dialog is opened for
    every activation of "open", and by nothing else. *)
Theorem X9_one_read_per_chosen_file events w :
  exists w' calls,
    run events w = Done tt w' calls
    /\ loads_started calls = chosen_files events
    /\ List.length (filter opens_dialog calls)
       = List.length (filter is_activate_open events).
Proof.
  destruct (run_steps events w) as (w' & calls & E & _ & Hl & Hd & _).
  exists w', calls. auto.
Qed.

(** X10: over any sequence of events, [g_printerr] is called once for
    each read that completed with an error or with bytes that do not
    pass the validation, and for nothing else; and when no path or error
    message printed holds a line feed, the standard error stream holds
    exactly as many line feeds: one line for each such read. *)
Theorem X10_one_line_per_failed_load events w :
  exists w' calls,
    run events w = Done tt w' calls
    /\ List.length (stderr_of calls)
       = List.length (filter fails_to_load events)
    /\ (forallb plain_names events = true ->
        line_feeds (stream calls)
        = List.length (filter fails_to_load events)).
Proof.
  destruct (run_steps events w) as (w' & calls & E & He & _).
  exists w', calls. split; [exact E|]. split; [exact He|].
  intros Hp.
  destruct (run_plain events w Hp) as (w2 & c2 & lines & E2 & S & P & N).
  rewrite E in E2. injection E2 as <- <-.
  unfold stream. rewrite S. fold (terminated lines).
  now rewrite line_feeds_terminated.
Qed.

(** X10 at a sequence with one failed read and one rejected file. *)
Lemma X10_witness :
  exists w' calls,
    run [ActivateOpen; DialogAnswered (Some notes_file);
         ReadCompleted notes_file (Failed not_found) None;
         ReadCompleted data_file (Loaded nul_bytes) None;
         ReadCompleted notes_file (Loaded hi_bytes) None]
      old_window
    = Done tt w' calls
    /\ List.length (stderr_of calls) = 2%nat
    /\ line_feeds (stream calls) = 2%nat.
Proof.
  destruct (X10_one_line_per_failed_load
              [ActivateOpen; DialogAnswered (Some notes_file);
               ReadCompleted notes_file (Failed not_found) None;
               ReadCompleted data_file (Loaded nul_bytes) None;
               ReadCompleted notes_file (Loaded hi_bytes) None]
              old_window)
    as (w' & calls & E & Hc & Hl).
  exists w', calls. split; [exact E|]. split; [exact Hc|].
  exact (Hl eq_refl).
Defined.

(** X11: every message the callbacks hand to [g_printerr], over any
    sequence of events and whatever the path and the error message,
    starts with "Unable to " and ends with a line feed; and when no path
    or error message printed holds a line feed, the standard error
    stream is made of lines, each ended by its line feed and each
    starting with "Unable to ". *)
Theorem X11_diagnostic_lines events w :
  exists w' calls,
    run events w = Done tt w' calls
    /\ forallb diagnostic_line (stderr_of calls) = true
    /\ (forallb plain_names events = true ->
        exists lines,
          stream calls = terminated lines
          /\ forallb plain_diagnostic lines = true).
Proof.
  destruct (run_lines events w) as (w' & calls & E & Hd).
  exists w', calls. split; [exact E|]. split; [exact Hd|].
  intros Hp.
  destruct (run_plain events w Hp) as (w2 & c2 & lines & E2 & S & P & N).
  rewrite E in E2. injection E2 as <- <-.
  exists lines. split; [|exact P].
  unfold stream. now rewrite S.
Qed.

(** X11 at a sequence with one failed read and one rejected file. *)
Lemma X11_witness :
  exists w' calls lines,
    run [ReadCompleted notes_file (Failed not_found) None;
         CursorMoved 1;
         ReadCompleted data_file (Loaded bad_bytes) None]
      old_window
    = Done tt w' calls
    /\ forallb diagnostic_line (stderr_of calls) = true
    /\ stream calls = terminated lines
    /\ forallb plain_diagnostic lines = true.
Proof.
  destruct (X11_diagnostic_lines
              [ReadCompleted notes_file (Failed not_found) None;
               CursorMoved 1;
               ReadCompleted data_file (Loaded bad_bytes) None]
              old_window)
    as (w' & calls & E & Hd & Hl).
  destruct (Hl eq_refl) as (lines & Hs & Hp).
  exists w', calls, lines. auto.
Defined.

End Extras.
